(** * Mastra code-review service: static analyzer, per-file workflow,
      fan-out of the webhook handler and the Markdown report composer.

    Shallow embedding of
      - src/tools/static-analyzer.ts        (staticAnalyzerTool.execute)
      - src/workflows/code-review-workflow.ts (the three workflow steps)
      - the webhook handler and generateReportMarkdown of the worker entry.

    JavaScript strings are sequences of UTF-16 code units; they are modelled
    as [list N].  Counts ([length], line numbers, metrics) are [nat]. *)

From Stdlib Require Import NArith Lia String Ascii DecimalString Sorted.
From stdpp Require Import base list.

Local Open Scope N_scope.

(** ** JavaScript strings *)

Module JS.

Definition jsstring := list N.

Fixpoint bytes_of (s : string) : list N :=
  match s with
  | EmptyString => []
  | String a s' => N_of_ascii a :: bytes_of s'
  end.

Definition cont (b : N) : N := N.land b 63.

(** UTF-8 bytes to UTF-16 code units; used to write string literals of the
    source (which contain Chinese text and emoji) in this file. *)
Fixpoint utf16_of_bytes (l : list N) : jsstring :=
  match l with
  | [] => []
  | b :: l1 =>
    if b <? 128 then b :: utf16_of_bytes l1
    else match l1 with
    | [] => [65533]
    | b2 :: l2 =>
      if b <? 224 then
        N.lor (N.shiftl (N.land b 31) 6) (cont b2) :: utf16_of_bytes l2
      else match l2 with
      | [] => [65533]
      | b3 :: l3 =>
        if b <? 240 then
          N.lor (N.shiftl (N.land b 15) 12)
                (N.lor (N.shiftl (cont b2) 6) (cont b3)) :: utf16_of_bytes l3
        else match l3 with
        | [] => [65533]
        | b4 :: l4 =>
          let cp := N.lor (N.shiftl (N.land b 7) 18)
                    (N.lor (N.shiftl (cont b2) 12)
                    (N.lor (N.shiftl (cont b3) 6) (cont b4))) in
          let v := cp - 65536 in
          (55296 + N.shiftr v 10) :: (56320 + N.land v 1023)
            :: utf16_of_bytes l4
        end
      end
    end
  end.

Definition lit (s : string) : jsstring := utf16_of_bytes (bytes_of s).

(** Template interpolation of a non-negative integer: its decimal digits. *)
Definition show_nat (n : nat) : jsstring :=
  lit (NilEmpty.string_of_uint (Nat.to_uint n)).

(** [s.split('\n')]: the pieces between line feeds; never empty, the empty
    string splits into one empty line. *)
Fixpoint split_lines (s : jsstring) : list jsstring :=
  match s with
  | [] => [[]]
  | c :: s' =>
    if c =? 10 then [] :: split_lines s'
    else match split_lines s' with
         | [] => [[c]]
         | l :: ls => (c :: l) :: ls
         end
  end.

Definition dq : jsstring := [34].
Definition nl : jsstring := [10].

End JS.

Import JS.

(** ** Regular expressions

    The three patterns of the analyzer use literals, character classes,
    alternation, [?], [*] and [+]; no anchors, groups are only used for
    alternation.  [RegExp.prototype.test] answers whether some substring of
    the line is in the language of the pattern. *)

Module Regex.

Inductive re : Type :=
| Empty : re                        (* matches nothing *)
| Eps : re                          (* matches the empty string *)
| Cls (p : N -> bool) : re          (* one code unit satisfying p *)
| Seq (r1 r2 : re) : re
| Alt (r1 r2 : re) : re
| Star (r : re) : re.

Definition Opt (r : re) : re := Alt r Eps.
Definition Plus (r : re) : re := Seq r (Star r).

(** Declarative meaning of a pattern. *)
Inductive matches : re -> jsstring -> Prop :=
| m_eps : matches Eps []
| m_cls p c : p c = true -> matches (Cls p) [c]
| m_seq r1 r2 s1 s2 :
    matches r1 s1 -> matches r2 s2 -> matches (Seq r1 r2) (s1 ++ s2)
| m_alt_l r1 r2 s : matches r1 s -> matches (Alt r1 r2) s
| m_alt_r r1 r2 s : matches r2 s -> matches (Alt r1 r2) s
| m_star_nil r : matches (Star r) []
| m_star_cons r s1 s2 :
    matches r s1 -> matches (Star r) s2 -> matches (Star r) (s1 ++ s2).

Fixpoint nullable (r : re) : bool :=
  match r with
  | Empty => false
  | Eps => true
  | Cls _ => false
  | Seq r1 r2 => nullable r1 && nullable r2
  | Alt r1 r2 => nullable r1 || nullable r2
  | Star _ => true
  end.

Fixpoint deriv (c : N) (r : re) : re :=
  match r with
  | Empty => Empty
  | Eps => Empty
  | Cls p => if p c then Eps else Empty
  | Seq r1 r2 =>
    if nullable r1 then Alt (Seq (deriv c r1) r2) (deriv c r2)
    else Seq (deriv c r1) r2
  | Alt r1 r2 => Alt (deriv c r1) (deriv c r2)
  | Star r1 => Seq (deriv c r1) (Star r1)
  end.

(** Some prefix of [s] is in the language of [r]. *)
Fixpoint match_prefix (r : re) (s : jsstring) : bool :=
  nullable r ||
  match s with
  | [] => false
  | c :: s' => match_prefix (deriv c r) s'
  end.

(** [r.test(s)]: some substring of [s] is in the language of [r]. *)
Fixpoint test (r : re) (s : jsstring) : bool :=
  match_prefix r s ||
  match s with
  | [] => false
  | _ :: s' => test r s'
  end.

(** Canonicalisation of the [i] flag (no [u] flag): a code unit is compared
    through its upper-case form, and a non-ASCII unit is never identified
    with an ASCII one; so against the ASCII letters of these patterns only
    the two ASCII cases of a letter agree. *)
Definition canonicalize (c : N) : N :=
  if (97 <=? c) && (c <=? 122) then c - 32 else c.

Definition chr (c : N) : re := Cls (N.eqb c).
Definition chr_i (c : N) : re :=
  Cls (fun x => canonicalize x =? canonicalize c).

Fixpoint seq_of (mk : N -> re) (s : jsstring) : re :=
  match s with
  | [] => Eps
  | [c] => mk c
  | c :: s' => Seq (mk c) (seq_of mk s')
  end.

Definition str (s : string) : re := seq_of chr (lit s).
Definition str_i (s : string) : re := seq_of chr_i (lit s).

(** [\s]: WhiteSpace and LineTerminator code units. *)
Definition is_space (c : N) : bool :=
  ((9 <=? c) && (c <=? 13)) || (c =? 32) || (c =? 160) || (c =? 5760)
  || ((8192 <=? c) && (c <=? 8202)) || (c =? 8232) || (c =? 8233)
  || (c =? 8239) || (c =? 8287) || (c =? 12288) || (c =? 65279).

Definition ws : re := Cls is_space.

End Regex.

(** ** src/tools/static-analyzer.ts *)

Module StaticAnalyzer.
Import Regex.

Inductive Severity := error | warning | info.

Definition severity_eqb (a b : Severity) : bool :=
  match a, b with
  | error, error | warning, warning | info, info => true
  | _, _ => false
  end.

Record Issue := mkIssue {
  line : nat;
  severity : Severity;
  message : jsstring;
  rule : jsstring
}.

Record Summary := mkSummary {
  total : nat;
  errors : nat;
  warnings : nat
}.

Record StaticResult := mkStaticResult {
  issues : list Issue;
  summary : Summary
}.

(** [/console\.(log|debug|info)/] *)
Definition re_console : re :=
  Seq (str "console.") (Alt (str "log") (Alt (str "debug") (str "info"))).

Definition is_quote (c : N) : bool := (c =? 39) || (c =? 34).

(** [/(password|api[_-]?key|secret|token)\s*=\s*Q[^Q]+Q/i], where the class
    [Q] holds the single and the double quote (code units 39 and 34). *)
Definition re_secret : re :=
  Seq (Alt (str_i "password")
      (Alt (Seq (str_i "api")
           (Seq (Opt (Cls (fun c => (c =? 95) || (c =? 45)))) (str_i "key")))
      (Alt (str_i "secret") (str_i "token"))))
 (Seq (Star ws)
 (Seq (chr 61)
 (Seq (Star ws)
 (Seq (Cls is_quote)
 (Seq (Plus (Cls (fun c => negb (is_quote c))))
      (Cls is_quote)))))).

(** [/\/\/\s*TODO/i] *)
Definition re_todo : re :=
  Seq (str "//") (Seq (Star ws) (str_i "TODO")).

Definition console_issue (idx : nat) : Issue :=
  mkIssue (idx + 1) warning (lit "Debug statement found") (lit "no-console").

Definition secret_issue (idx : nat) : Issue :=
  mkIssue (idx + 1) error (lit "Hardcoded secret detected")
          (lit "no-hardcoded-secrets").

Definition todo_issue (idx : nat) : Issue :=
  mkIssue (idx + 1) info (lit "TODO comment found") (lit "todo-comment").

(** [issues.push(x)] when [c] holds. *)
Definition push_if (c : bool) (x : Issue) (issues : list Issue) : list Issue :=
  if c then issues ++ [x] else issues.

(** Body of the [lines.forEach((line, idx) => ...)] callback: the array
    [issues] before the call, and after it. *)
Definition check_line (issues : list Issue) (ln : jsstring) (idx : nat)
  : list Issue :=
  let issues := push_if (test re_console ln) (console_issue idx) issues in
  let issues := push_if (test re_secret ln) (secret_issue idx) issues in
  let issues := push_if (test re_todo ln) (todo_issue idx) issues in
  issues.

(** [lines.forEach] from index [idx] on. *)
Fixpoint forEach_from (idx : nat) (lines : list jsstring)
  (issues : list Issue) : list Issue :=
  match lines with
  | [] => issues
  | ln :: rest => forEach_from (S idx) rest (check_line issues ln idx)
  end.

Definition count_severity (s : Severity) (l : list Issue) : nat :=
  length (filter (fun i => severity_eqb (severity i) s = true) l).

(** [staticAnalyzerTool.execute({context: {code, fileName}})] *)
Definition execute (code fileName : jsstring) : StaticResult :=
  let lines := split_lines code in
  let issues := forEach_from 0 lines [] in
  let errors := count_severity error issues in
  let warnings := count_severity warning issues in
  mkStaticResult issues (mkSummary (length issues) errors warnings).

End StaticAnalyzer.

(** ** src/workflows/code-review-workflow.ts *)

Module Workflow.
Import StaticAnalyzer.

Record Input := mkInput {
  in_code : jsstring;
  in_fileName : jsstring
}.

(** Output of step 1, input of step 2. *)
Record Analysed := mkAnalysed {
  an_code : jsstring;
  an_fileName : jsstring;
  an_staticResult : StaticResult
}.

(** Output of step 2, input of step 3. *)
Record Reviewed := mkReviewed {
  rv_fileName : jsstring;
  rv_staticResult : StaticResult;
  rv_aiReview : jsstring
}.

Record Metrics := mkMetrics {
  staticIssues : nat;
  staticErrors : nat
}.

(** Output of step 3 and of the workflow: [{fileName, report, metrics}]. *)
Record Output := mkOutput {
  out_fileName : jsstring;
  out_report : jsstring;
  out_metrics : Metrics
}.

(** A step either returns or throws an [Error] with a message. *)
Definition step (A : Type) : Type := jsstring + A.
Definition ret {A} (a : A) : step A := inr a.
Definition throw {A} (msg : jsstring) : step A := inl msg.
Definition bind {A B} (m : step A) (k : A -> step B) : step B :=
  match m with
  | inl e => inl e
  | inr a => k a
  end.

(** The prompt of step 2 is a template over exactly these values. *)
Record Prompt := mkPrompt {
  p_fileName : jsstring;
  p_code : jsstring;
  p_total : nat;
  p_issues : list Issue
}.

(** [agent.generate(prompt)]: resolves with a response whose [text] may be
    missing or empty, or rejects. *)
Inductive Generated :=
| Response (text : option jsstring)
| Rejected (msg : jsstring).

(** What [mastra?.getAgent('codeReviewerAgent')] evaluates to: the agent, or
    nothing. *)
Definition Agent := option (Prompt -> Generated).

Definition staticAnalysisStep (inputData : Input) : step Analysed :=
  let result := execute (in_code inputData) (in_fileName inputData) in
  ret (mkAnalysed (in_code inputData) (in_fileName inputData) result).

(** [response.text || 'No review generated'] *)
Definition text_or_default (text : option jsstring) : jsstring :=
  match text with
  | None | Some [] => lit "No review generated"
  | Some t => t
  end.

Definition aiReviewStep (agent : Agent) (inputData : Analysed)
  : step Reviewed :=
  match agent with
  | None => throw (lit "Agent not found")
  | Some generate =>
    let prompt := mkPrompt (an_fileName inputData) (an_code inputData)
                    (total (summary (an_staticResult inputData)))
                    (issues (an_staticResult inputData)) in
    match generate prompt with
    | Rejected msg => throw msg
    | Response text =>
      ret (mkReviewed (an_fileName inputData) (an_staticResult inputData)
             (text_or_default text))
    end
  end.

Definition show_severity (s : Severity) : jsstring :=
  match s with
  | error => lit "error"
  | warning => lit "warning"
  | info => lit "info"
  end.

Definition issue_line (i : Issue) : jsstring :=
  lit "**Line " ++ show_nat (line i) ++ lit "** [" ++ show_severity (severity i)
  ++ lit "]: " ++ message i ++ lit " (" ++ rule i ++ lit ")".

(** [a.join(sep)] *)
Fixpoint join (sep : jsstring) (l : list jsstring) : jsstring :=
  match l with
  | [] => []
  | [x] => x
  | x :: rest => x ++ sep ++ join sep rest
  end.

Definition file_report (fileName : jsstring) (staticResult : StaticResult)
  (aiReview : jsstring) : jsstring :=
  lit "# Code Review: " ++ fileName ++ nl ++ nl
  ++ lit "## 📊 Static Analysis" ++ nl
  ++ lit "- Total Issues: " ++ show_nat (total (summary staticResult)) ++ nl
  ++ lit "- Errors: " ++ show_nat (errors (summary staticResult)) ++ nl
  ++ lit "- Warnings: " ++ show_nat (warnings (summary staticResult)) ++ nl
  ++ nl
  ++ join nl (map issue_line (issues staticResult)) ++ nl ++ nl
  ++ lit "## 🤖 AI Review" ++ nl
  ++ aiReview ++ nl ++ nl
  ++ lit "---" ++ nl
  ++ lit "*Generated by Mastra Code Review*".

Definition generateReportStep (inputData : Reviewed) : step Output :=
  let fileName := rv_fileName inputData in
  let staticResult := rv_staticResult inputData in
  let aiReview := rv_aiReview inputData in
  let report := file_report fileName staticResult aiReview in
  ret (mkOutput fileName report
         (mkMetrics (total (summary staticResult))
                    (errors (summary staticResult)))).

(** [.then(staticAnalysisStep).then(aiReviewStep).then(generateReportStep)] *)
Definition codeReviewWorkflow (agent : Agent) (inputData : Input)
  : step Output :=
  bind (staticAnalysisStep inputData) (fun a =>
  bind (aiReviewStep agent a) (fun r =>
  generateReportStep r)).

(** What [await workflow.start(...)] gives the handler: a result object with
    a [status], or an exception. *)
Inductive Started :=
| StatusSuccess (result : Output)
| StatusFailed (errorMessage : option jsstring)
| StatusOther
| Threw (message : jsstring).

(** How the workflow engine (an external library) surfaces a step that threw
    with message [msg]; never as a success. *)
Inductive Surfacing := AsFailed | AsFailedNoMessage | AsOther | AsThrow.

Definition surface (how : Surfacing) (msg : jsstring) : Started :=
  match how with
  | AsFailed => StatusFailed (Some msg)
  | AsFailedNoMessage => StatusFailed None
  | AsOther => StatusOther
  | AsThrow => Threw msg
  end.

Definition start (how : Surfacing) (agent : Agent) (inputData : Input)
  : Started :=
  match codeReviewWorkflow agent inputData with
  | inr out => StatusSuccess out
  | inl msg => surface how msg
  end.

End Workflow.

Local Open Scope nat_scope.

(** ** The webhook handler: fan-out over the scanned files and statistics *)

Module Handler.
Import StaticAnalyzer Workflow.

Record SourceFile := mkFile {
  path : jsstring;
  content : jsstring;
  size : nat
}.

(** The objects the per-file callback returns.  A field the object literal
    does not set is [None]. *)
Record Outcome := mkOutcome {
  success : bool;
  fileName : jsstring;
  report : option jsstring;
  metrics : option Metrics;
  staticResult : option StaticResult;
  error : option jsstring
}.

(** The [async (file) => { try {...} catch {...} }] callback.  In the success
    branch [...output] is spread after [fileName: file.path], so the fields
    of [output] (fileName, report, metrics) are the ones kept. *)
Definition reviewFile (start : Input -> Started) (file : SourceFile)
  : Outcome :=
  match start (mkInput (content file) (path file)) with
  | StatusSuccess output =>
    mkOutcome true (out_fileName output) (Some (out_report output))
              (Some (out_metrics output)) None None
  | StatusFailed errorMessage =>
    mkOutcome false (path file) None None None errorMessage
  | StatusOther =>
    mkOutcome false (path file) None None None
              (Some (lit "Workflow execution failed"))
  | Threw message =>
    mkOutcome false (path file) None None None (Some message)
  end.

(** [Promise.all]: one slot per promise, in the order of the input array; a
    promise that settles stores its value in its own slot, whatever the order
    [completion] in which the promises settle; the result is ready when every
    slot is filled. *)
Definition settle {A} (values : list A) (slots : list (option A)) (i : nat)
  : list (option A) :=
  match values !! i with
  | Some v => <[i := Some v]> slots
  | None => slots
  end.

Definition promise_all {A} (values : list A) (completion : list nat)
  : option (list A) :=
  mapM id (foldl (settle values) (replicate (length values) None) completion).

(** [await Promise.all(scanResult.files.map(async (file) => ...))] *)
Definition review_all (start : Input -> Started) (files : list SourceFile)
  (completion : list nat) : option (list Outcome) :=
  promise_all (map (reviewFile start) files) completion.

Record CriticalFile := mkCritical {
  cf_fileName : jsstring;
  cf_errors : nat
}.

(** [r.metrics?.staticIssues || 0] and [r.metrics?.staticErrors || 0] *)
Definition issues_or_0 (r : Outcome) : nat :=
  match metrics r with
  | Some m => staticIssues m
  | None => 0
  end.

Definition errors_or_0 (r : Outcome) : nat :=
  match metrics r with
  | Some m => staticErrors m
  | None => 0
  end.

(** [.filter(r => r.metrics?.staticErrors > 0).map(r => ({fileName, errors}))]:
    an outcome without metrics does not pass the filter. *)
Definition critical_of (r : Outcome) : option CriticalFile :=
  match metrics r with
  | Some m =>
    if 0 <? staticErrors m then Some (mkCritical (fileName r) (staticErrors m))
    else None
  | None => None
  end.

(** The handler's local variables after step 7. *)
Record Statistics := mkStatistics {
  results : list Outcome;
  successResults : list Outcome;
  totalIssues : nat;
  totalErrors : nat;
  criticalFiles : list CriticalFile
}.

Definition statistics (results : list Outcome) : Statistics :=
  let successResults := filter (fun r => success r = true) results in
  let totalIssues :=
    foldl (fun sum r => sum + issues_or_0 r) 0 successResults in
  let totalErrors :=
    foldl (fun sum r => sum + errors_or_0 r) 0 successResults in
  let criticalFiles := omap critical_of successResults in
  mkStatistics results successResults totalIssues totalErrors criticalFiles.

End Handler.

(** ** generateReportMarkdown *)

Module Report.
Import StaticAnalyzer Workflow Handler.

Record ReportData := mkReportData {
  repository : jsstring;
  branch : jsstring;
  eventType : jsstring;
  d_totalFiles : nat;
  d_totalIssues : nat;
  d_totalErrors : nat;
  d_criticalFiles : list CriticalFile;
  d_results : list Outcome
}.

(** One [### file] block of the detailed list. *)
Record FileBlock := mkBlock {
  b_fileName : jsstring;
  b_issues : nat;
  b_errors : nat;
  b_findings : list Issue;
  b_omitted : option nat
}.

(** The parts of the report, in the order the function appends them. *)
Inductive Part :=
| Header (repository branch eventType time : jsstring)
| SummaryTable (totalFiles totalIssues totalErrors critical : nat)
| Priority (files : list CriticalFile)
| Details (blocks : list FileBlock) (moreFiles : option nat)
| NoIssues
| Footer.

(** [n > k ? n - k : nothing] *)
Definition excess (n k : nat) : option nat :=
  if k <? n then Some (n - k) else None.

(** [results.filter(r => r.metrics?.staticIssues > 0)], each kept outcome
    with its metrics. *)
Definition with_issues (r : Outcome) : option (Outcome * Metrics) :=
  match metrics r with
  | Some m => if 0 <? staticIssues m then Some (r, m) else None
  | None => None
  end.

(** [r.staticResult?.issues], the empty list when missing. *)
Definition issues_of (r : Outcome) : list Issue :=
  match staticResult r with
  | Some sr => issues sr
  | None => []
  end.

Definition block_of (rm : Outcome * Metrics) : FileBlock :=
  let (r, m) := rm in
  mkBlock (fileName r) (staticIssues m) (staticErrors m)
          (take 5 (issues_of r)) (excess (length (issues_of r)) 5).

Definition parts (data : ReportData) (now : jsstring) : list Part :=
  [ Header (repository data) (branch data) (eventType data) now;
    SummaryTable (d_totalFiles data) (d_totalIssues data)
                 (d_totalErrors data) (length (d_criticalFiles data)) ]
  ++ (if 0 <? d_totalErrors data then [Priority (d_criticalFiles data)]
      else [])
  ++ (if 0 <? d_totalIssues data then
        let qualifying := omap with_issues (d_results data) in
        let topFiles := take 10 qualifying in
        [Details (map block_of topFiles) (excess (length qualifying) 10)]
      else [NoIssues])
  ++ [Footer].

Definition emoji (s : Severity) : jsstring :=
  match s with
  | StaticAnalyzer.error => lit "🔴"
  | StaticAnalyzer.warning => lit "🟡"
  | StaticAnalyzer.info => lit "ℹ️"
  end.

Definition finding_line (issue : Issue) : jsstring :=
  emoji (severity issue) ++ lit " **Line " ++ show_nat (line issue)
  ++ lit "**: " ++ message issue ++ lit " (`" ++ rule issue ++ lit "`)" ++ nl.

Definition findings_note (o : option nat) : jsstring :=
  match o with
  | Some n => nl ++ lit "_... 还有 " ++ show_nat n ++ lit " 个问题_" ++ nl
  | None => []
  end.

Definition files_note (o : option nat) : jsstring :=
  match o with
  | Some n =>
    nl ++ lit "_... 还有 " ++ show_nat n ++ lit " 个文件包含问题_" ++ nl ++ nl
  | None => []
  end.

Definition render_block (b : FileBlock) : jsstring :=
  lit "### " ++ b_fileName b ++ nl ++ nl
  ++ lit "**问题数**: " ++ show_nat (b_issues b) ++ lit " | **错误数**: "
  ++ show_nat (b_errors b) ++ nl ++ nl
  ++ concat (map finding_line (b_findings b))
  ++ findings_note (b_omitted b)
  ++ nl.

Definition critical_line (file : CriticalFile) : jsstring :=
  lit "- **" ++ cf_fileName file ++ lit "** - " ++ show_nat (cf_errors file)
  ++ lit " 个错误" ++ nl.

Definition render (p : Part) : jsstring :=
  match p with
  | Header repository branch eventType time =>
    lit "# 🤖 AI 代码审查报告" ++ nl ++ nl
    ++ lit "**仓库**: " ++ repository ++ nl
    ++ lit "**分支**: " ++ branch ++ nl
    ++ lit "**事件**: " ++ eventType ++ nl
    ++ lit "**时间**: " ++ time ++ nl ++ nl
  | SummaryTable totalFiles totalIssues totalErrors critical =>
    lit "## 📊 审查摘要" ++ nl ++ nl
    ++ lit "| 指标 | 数量 |" ++ nl
    ++ lit "|------|------|" ++ nl
    ++ lit "| 扫描文件 | " ++ show_nat totalFiles ++ lit " |" ++ nl
    ++ lit "| 发现问题 | " ++ show_nat totalIssues ++ lit " |" ++ nl
    ++ lit "| 错误数量 | " ++ show_nat totalErrors ++ lit " |" ++ nl
    ++ lit "| 关键文件 | " ++ show_nat critical ++ lit " |" ++ nl ++ nl
  | Priority files =>
    lit "## ⚠️ 需要优先修复的文件" ++ nl ++ nl
    ++ concat (map critical_line files)
    ++ nl
  | Details blocks moreFiles =>
    lit "## 📋 详细问题列表" ++ nl ++ nl
    ++ concat (map render_block blocks)
    ++ files_note moreFiles
  | NoIssues =>
    lit "## ✅ 太棒了！" ++ nl ++ nl
    ++ lit "没有发现任何问题，代码质量良好！" ++ nl ++ nl
  | Footer =>
    lit "---" ++ nl ++ nl
    ++ lit "🤖 _此报告由 [Mastra AI 代码审查系统](https://github.com/mastra) 自动生成_"
    ++ nl
  end.

(** [generateReportMarkdown(data)]; [now] is what [new Date().toISOString()]
    reads from the clock when the function runs. *)
Definition generateReportMarkdown (data : ReportData) (now : jsstring)
  : jsstring :=
  concat (map render (parts data now)).

(** The argument the handler builds for [generateReportMarkdown]. *)
Definition report_data (repository branch eventType : jsstring)
  (totalFiles : nat) (st : Statistics) : ReportData :=
  mkReportData repository branch eventType totalFiles (totalIssues st)
               (totalErrors st) (criticalFiles st) (successResults st).

End Report.

(** ** Steps 6 to 8 of the handler, composed *)

Module Webhook.
Import StaticAnalyzer Workflow Handler Report.

(** Fan-out, statistics and report for the scanned [files];
    [scanResult.summary.totalFiles] is the number of scanned files. *)
Definition review (start : Input -> Started)
  (repository branch eventType : jsstring) (files : list SourceFile)
  (completion : list nat) (now : jsstring)
  : option (Statistics * list Part * jsstring) :=
  match review_all start files completion with
  | Some results =>
    let st := statistics results in
    let data := report_data repository branch eventType (length files) st in
    Some (st, parts data now, generateReportMarkdown data now)
  | None => None
  end.

End Webhook.

(** ** Specification-side definitions used in the statements *)

Module Spec.
Import StaticAnalyzer Workflow Handler Report.

(** Number of findings of severity [s], counted one by one. *)
Fixpoint tally (s : Severity) (l : list Issue) : nat :=
  match l with
  | [] => 0
  | i :: rest =>
    match severity i, s with
    | StaticAnalyzer.error, StaticAnalyzer.error
    | StaticAnalyzer.warning, StaticAnalyzer.warning
    | StaticAnalyzer.info, StaticAnalyzer.info => S (tally s rest)
    | _, _ => tally s rest
    end
  end.

(** The findings one line contributes, by the three rules in their order. *)
Definition line_findings (ln : jsstring) (idx : nat) : list Issue :=
  (if Regex.test re_console ln then [console_issue idx] else [])
  ++ (if Regex.test re_secret ln then [secret_issue idx] else [])
  ++ (if Regex.test re_todo ln then [todo_issue idx] else []).

(** The findings of the lines [lines], numbered from index [idx] on: those of
    the first line, then those of the later lines. *)
Fixpoint findings_from (idx : nat) (lines : list jsstring) : list Issue :=
  match lines with
  | [] => []
  | ln :: rest => line_findings ln idx ++ findings_from (S idx) rest
  end.

(** Number of findings reported at line number [n]. *)
Definition on_line (n : nat) (l : list Issue) : nat :=
  length (filter (fun i => line i = n) l).

(** Sum of a metric over the successful outcomes only. *)
Fixpoint sum_successful (f : Metrics -> nat) (l : list Outcome) : nat :=
  match l with
  | [] => 0
  | r :: rest =>
    match success r, metrics r with
    | true, Some m => f m + sum_successful f rest
    | _, _ => sum_successful f rest
    end
  end.

(** The successful outcomes with at least one error, in order, as
    [{fileName, errors}]. *)
Fixpoint critical_spec (l : list Outcome) : list CriticalFile :=
  match l with
  | [] => []
  | r :: rest =>
    match success r, metrics r with
    | true, Some m =>
      if 0 <? staticErrors m
      then mkCritical (fileName r) (staticErrors m) :: critical_spec rest
      else critical_spec rest
    | _, _ => critical_spec rest
    end
  end.

(** The workflow input the handler builds for a file, and the prompt the
    review step builds for it. *)
Definition input_of (file : SourceFile) : Input :=
  mkInput (content file) (path file).

Definition prompt_of (file : SourceFile) : Prompt :=
  let sr := execute (content file) (path file) in
  mkPrompt (path file) (content file) (total (summary sr)) (issues sr).

(** What the agent does with a prompt: nothing when it is not registered. *)
Definition agent_reply (agent : Agent) (p : Prompt) : option Generated :=
  match agent with
  | Some generate => Some (generate p)
  | None => None
  end.

(** The blocks of the detailed list of a report. *)
Definition detail_blocks (ps : list Part) : list FileBlock :=
  concat (map (fun p => match p with Details bs _ => bs | _ => [] end) ps).

(** The parts after the header do not depend on the clock. *)
Definition body_parts (data : ReportData) : list Part :=
  SummaryTable (d_totalFiles data) (d_totalIssues data)
               (d_totalErrors data) (length (d_criticalFiles data))
  :: (if 0 <? d_totalErrors data then [Priority (d_criticalFiles data)]
      else [])
  ++ (if 0 <? d_totalIssues data then
        [Details (map block_of (take 10 (omap with_issues (d_results data))))
                 (excess (length (omap with_issues (d_results data))) 10)]
      else [NoIssues])
  ++ [Footer].

(** The text of a report before and after the timestamp. *)
Definition header_prefix (data : ReportData) : jsstring :=
  lit "# 🤖 AI 代码审查报告" ++ nl ++ nl
  ++ lit "**仓库**: " ++ repository data ++ nl
  ++ lit "**分支**: " ++ branch data ++ nl
  ++ lit "**事件**: " ++ eventType data ++ nl
  ++ lit "**时间**: ".

Definition report_suffix (data : ReportData) : jsstring :=
  nl ++ nl ++ concat (map render (body_parts data)).

(** The blocks a report would show for these outcomes if each block listed
    the first five findings of its file. *)
Definition first_findings (r : Outcome) : list Issue := take 5 (issues_of r).

Definition is_priority (p : Part) : bool :=
  match p with Priority _ => true | _ => false end.

(** [needle] occurs in [hay]. *)
Fixpoint starts_with (needle hay : jsstring) : bool :=
  match needle, hay with
  | [], _ => true
  | _ :: _, [] => false
  | a :: n', b :: h' => N.eqb a b && starts_with n' h'
  end.

Fixpoint includes (hay needle : jsstring) : bool :=
  starts_with needle hay ||
  match hay with
  | [] => false
  | _ :: h' => includes h' needle
  end.

End Spec.

(** ** String operations of the scanner and of the handler *)

Module Str.

(** [a === b] on strings. *)
Fixpoint eqb (a b : jsstring) : bool :=
  match a, b with
  | [], [] => true
  | x :: a', y :: b' => N.eqb x y && eqb a' b'
  | _, _ => false
  end.

(** [s.startsWith(p)], [s.includes(p)] and [s.endsWith(p)]. *)
Definition startsWith (s p : jsstring) : bool := Spec.starts_with p s.
Definition includes (s p : jsstring) : bool := Spec.includes s p.
Definition endsWith (s p : jsstring) : bool :=
  Spec.starts_with (rev p) (rev s).

(** [s.split(sep)] for a separator of one code unit. *)
Fixpoint split (sep : N) (s : jsstring) : list jsstring :=
  match s with
  | [] => [[]]
  | c :: s' =>
    if N.eqb c sep then [] :: split sep s'
    else match split sep s' with
         | [] => [[c]]
         | l :: ls => (c :: l) :: ls
         end
  end.

(** [s.replace(pat, rep)] for a string pattern: the first occurrence only. *)
Fixpoint replace (pat rep s : jsstring) : jsstring :=
  if Spec.starts_with pat s then rep ++ drop (length pat) s
  else match s with
       | [] => []
       | c :: s' => c :: replace pat rep s'
       end.

(** Truthiness of an optional string: present and not empty. *)
Definition truthy (o : option jsstring) : bool :=
  match o with
  | Some (_ :: _) => true
  | _ => false
  end.

(** [a || b] on strings. *)
Definition or_else (o : option jsstring) (d : jsstring) : jsstring :=
  match o with
  | Some (c :: s) => c :: s
  | _ => d
  end.

(** Template interpolation of a possibly undefined string. *)
Definition show (o : option jsstring) : jsstring :=
  match o with
  | Some s => s
  | None => lit "undefined"
  end.

End Str.

(** ** The repository scanner (githubScannerTool) *)

Module Scanner.
Import Workflow Handler.

Definition CODE_EXTENSIONS : list jsstring :=
  map lit [".js"; ".jsx"; ".ts"; ".tsx";
           ".py"; ".java"; ".go"; ".rs";
           ".c"; ".cpp"; ".h"; ".hpp";
           ".rb"; ".php"; ".swift"; ".kt";
           ".sh"; ".bash"; ".sql"]%string.

Definition IGNORED_DIRS : list jsstring :=
  map lit ["node_modules"; ".git"; "dist"; "build"; ".next"; "coverage";
           ".vscode"; ".idea"; "vendor"; "__pycache__"]%string.

(** The [for] loop returns false at the first ignored directory found. *)
Definition shouldScanFile (path : jsstring) : bool :=
  if existsb (fun ignoredDir =>
                Str.includes path (ignoredDir ++ lit "/")
                || Str.startsWith path (ignoredDir ++ lit "/"))
             IGNORED_DIRS
  then false
  else existsb (fun ext => Str.endsWith path ext) CODE_EXTENSIONS.

(** An entry of the tree the GitHub API returns. *)
Record Item := mkItem {
  item_type : jsstring;
  item_path : jsstring;
  item_size : nat
}.

(** The answer to the tree request: the request itself fails, or it is not
    ok with a status and status text, or it carries the tree. *)
Inductive TreeResponse :=
| TreeRejected (message : jsstring)
| TreeNotOk (status : nat) (statusText : jsstring)
| TreeOk (tree : list Item).

(** The answer to a contents request: the request itself fails, or it is
    not ok with a status text, or it has a JSON body whose [content] field
    (Base64) may be missing. *)
Inductive ContentResponse :=
| ContentRejected (message : jsstring)
| ContentNotOk (statusText : jsstring)
| ContentOk (content : option jsstring).

Record Summary := mkSummary {
  totalFiles : nat;
  totalSize : nat
}.

Record ScanResult := mkScanResult {
  files : list SourceFile;
  summary : Summary
}.

Section Execute.

(** The GitHub API as seen by one invocation, and the Base64 decoding of
    [Buffer.from(_, 'base64').toString('utf-8')]. *)
Variable getTreeResponse : TreeResponse.
Variable getContentResponse : jsstring -> ContentResponse.
Variable base64_decode : jsstring -> jsstring.
Variable githubToken : jsstring.

Definition getTree : step (list Item) :=
  match getTreeResponse with
  | TreeRejected message => throw message
  | TreeNotOk status statusText =>
    throw (lit "Failed to fetch repository tree: " ++ show_nat status
           ++ lit " false " ++ statusText ++ lit " " ++ githubToken)
  | TreeOk tree => ret tree
  end.

Definition getFileContent (path : jsstring) : step jsstring :=
  match getContentResponse path with
  | ContentRejected message => throw message
  | ContentNotOk statusText =>
    throw (lit "Failed to fetch file " ++ path ++ lit ": " ++ statusText)
  | ContentOk (Some (c :: content)) => ret (base64_decode (c :: content))
  | ContentOk _ => ret []
  end.

(** The callback of [codeFiles.map]: the file, or [null] when its content
    could not be fetched. *)
Definition fetchFile (file : Item) : option SourceFile :=
  match getFileContent (item_path file) with
  | inr content => Some (mkFile (item_path file) content (item_size file))
  | inl _ => None
  end.

(** [githubScannerTool.execute]; [Promise.all] keeps the order of
    [codeFiles]. *)
Definition execute : step ScanResult :=
  match getTree with
  | inl message => throw (lit "GitHub scanner error: " ++ message)
  | inr tree =>
    let codeFiles :=
      filter (fun item => Str.eqb (item_type item) (lit "blob")
                          && shouldScanFile (item_path item) = true) tree in
    let files := map fetchFile codeFiles in
    let validFiles := omap id files in
    let totalSize := foldl (fun sum f => sum + size f) 0 validFiles in
    ret (mkScanResult validFiles (mkSummary (length validFiles) totalSize))
  end.

End Execute.

End Scanner.

(** ** The webhook endpoint, POST /webhook/github *)

Module Endpoint.
Import Workflow Handler Report.

(** The fields of the webhook payload the handler reads. *)
Record Payload := mkPayload {
  repository_full_name : option jsstring;
  ref : option jsstring;
  pull_request_head_ref : option jsstring;
  pull_request_number : option nat
}.

Record Request := mkRequest {
  x_github_event : option jsstring;
  json : step Payload;
  GITHUB_TOKEN : option jsstring
}.

(** The calls to the GitHub API the handler makes. *)
Inductive Effect :=
| Scan (owner repo branch githubToken : jsstring)
| CreateIssue (owner repo title body : jsstring)
| CreateComment (owner repo : jsstring) (pullNumber : nat) (body : jsstring).

Inductive Body :=
| Unsupported (message : jsstring)
| Failure (error : jsstring)
| Completed (repository branch eventType : jsstring)
            (totalFiles totalIssues totalErrors criticalFilesCount : nat)
            (timestamp : jsstring).

Record Response := mkResponse {
  status : nat;
  body : Body
}.

(** What surrounds one invocation: the scanner, the registered workflow, the
    answer of GitHub to a post ([Some text] when the response is not ok),
    and the two readings of the clock. *)
Record World := mkWorld {
  scan : jsstring -> jsstring -> jsstring -> jsstring
         -> step Scanner.ScanResult;
  getWorkflow : option (Input -> Started);
  post_error : Effect -> option jsstring;
  report_time : jsstring;
  response_time : jsstring
}.

Definition supported (eventType : jsstring) : bool :=
  existsb (Str.eqb eventType) [lit "push"; lit "pull_request"].

(** The outer [catch]: status 500 with [error.message] or a default. *)
Definition caught (message : jsstring) : Response :=
  mkResponse 500 (Failure (Str.or_else (Some message)
                                       (lit "Internal server error"))).

Definition branch_of (eventType : jsstring) (payload : Payload) : jsstring :=
  if Str.eqb eventType (lit "push") then
    Str.or_else (option_map (Str.replace (lit "refs/heads/") []) (ref payload))
                (lit "main")
  else if Str.eqb eventType (lit "pull_request") then
    Str.or_else (pull_request_head_ref payload) (lit "main")
  else [].

Definition pullRequestNumber_of (eventType : jsstring) (payload : Payload)
  : option nat :=
  if Str.eqb eventType (lit "push") then None
  else if Str.eqb eventType (lit "pull_request")
       then pull_request_number payload
       else None.

Definition issue_title (branch : jsstring) (totalErrors : nat) : jsstring :=
  lit "🤖 代码审查报告 - " ++ branch ++ lit " (发现 " ++ show_nat totalErrors
  ++ lit " 个错误)".

(** Step 9: the post, if any, and the error it throws when GitHub refuses. *)
Definition publish (w : World) (eventType owner repo branch : jsstring)
  (pullRequestNumber : option nat) (st : Statistics)
  (reportMarkdown : jsstring) : list Effect * option jsstring :=
  if Str.eqb eventType (lit "push") then
    if 0 <? totalIssues st then
      let e := CreateIssue owner repo (issue_title branch (totalErrors st))
                           reportMarkdown in
      ([e], option_map (fun t => lit "Failed to create GitHub issue: " ++ t)
                       (post_error w e))
    else ([], None)
  else if Str.eqb eventType (lit "pull_request") then
    match pullRequestNumber with
    | Some (S n) =>
      let e := CreateComment owner repo (S n) reportMarkdown in
      ([e], option_map (fun t => lit "Failed to create PR comment: " ++ t)
                       (post_error w e))
    | _ => ([], None)
    end
  else ([], None).

(** Steps 5 to 10: scan, review, report, post and answer, once the event,
    the repository and the token have been checked. *)
Definition process (w : World) (eventType : jsstring) (payload : Payload)
  (owner repo githubToken : jsstring) : Response * list Effect :=
  let branch := branch_of eventType payload in
  let pullRequestNumber := pullRequestNumber_of eventType payload in
  let scanned := [Scan owner repo branch githubToken] in
  match scan w owner repo branch githubToken with
  | inl message => (caught message, scanned)
  | inr scanResult =>
    match getWorkflow w with
    | None => (mkResponse 500 (Failure (lit "Workflow not found")), scanned)
    | Some start =>
      let results := map (reviewFile start) (Scanner.files scanResult) in
      let st := statistics results in
      let totalFiles := Scanner.totalFiles (Scanner.summary scanResult) in
      let reportMarkdown :=
        generateReportMarkdown
          (report_data (owner ++ lit "/" ++ repo) branch eventType
                       totalFiles st)
          (report_time w) in
      let (posts, failed) :=
        publish w eventType owner repo branch pullRequestNumber st
                reportMarkdown in
      match failed with
      | Some message => (caught message, scanned ++ posts)
      | None =>
        (mkResponse 200
           (Completed (owner ++ lit "/" ++ repo) branch eventType
                      totalFiles (totalIssues st) (totalErrors st)
                      (length (criticalFiles st)) (response_time w)),
         scanned ++ posts)
      end
    end
  end.

(** The handler: its response and the GitHub calls it made, in order. *)
Definition webhook (w : World) (req : Request) : Response * list Effect :=
  let eventType := x_github_event req in
  if negb (Str.truthy eventType)
     || negb (supported (Str.show eventType)) then
    (mkResponse 200
       (Unsupported (lit "Event type '" ++ Str.show eventType
          ++ lit "' is not supported. Only 'push' and 'pull_request' events are processed.")),
     [])
  else
  let eventType := Str.show eventType in
  match json req with
  | inl message => (caught message, [])
  | inr payload =>
    let repository := repository_full_name payload in
    let segments := match repository with
                    | Some r => Str.split 47 r
                    | None => []
                    end in
    let owner := segments !! 0 in
    let repo := segments !! 1 in
    if negb (Str.truthy owner) || negb (Str.truthy repo) then
      (mkResponse 400
         (Failure (lit "Invalid webhook payload: missing repository information")),
       [])
    else
    if negb (Str.truthy (GITHUB_TOKEN req)) then
      (mkResponse 500
         (Failure (lit "GITHUB_TOKEN environment variable is required")), [])
    else
      process w eventType payload (Str.show owner) (Str.show repo)
              (Str.show (GITHUB_TOKEN req))
  end.

End Endpoint.

(** ** The AbortSignal polyfill *)

Module Polyfill.

(** What the [onabort] property of a signal holds: nothing, a handler
    assigned by the user, or the closure installed by [addEventListener],
    which remembers the handler it replaced. *)
Inductive Handler :=
| HNull
| HUser (f : nat)
| HWrap (originalOnAbort : Handler).

(** A signal: its entry in [listenersMap] (the listeners in insertion order)
    and its [onabort] property.  Listener functions are identified by
    numbers. *)
Record Signal := mkSignal {
  listeners : option (list nat);
  onabort : Handler
}.

Definition fresh : Signal := mkSignal None HNull.

Definition is_abort (type : jsstring) : bool := Str.eqb type (lit "abort").

Definition has (ls : list nat) (listener : nat) : bool :=
  existsb (Nat.eqb listener) ls.

Definition addEventListener (type : jsstring) (listener : nat) (this : Signal)
  : Signal :=
  if negb (is_abort type) then this
  else
    let ls := match listeners this with Some ls => ls | None => [] end in
    if has ls listener then mkSignal (Some ls) (onabort this)
    else mkSignal (Some (ls ++ [listener])) (HWrap (onabort this)).

Definition removeEventListener (type : jsstring) (listener : nat)
  (this : Signal) : Signal :=
  if negb (is_abort type) then this
  else match listeners this with
       | None => this
       | Some ls =>
         let ls' := filter (fun l => l <> listener) ls in
         match ls' with
         | [] => mkSignal None HNull
         | _ :: _ => mkSignal (Some ls') (onabort this)
         end
       end.

(** [signal.onabort = f] *)
Definition set_onabort (f : nat) (this : Signal) : Signal :=
  mkSignal (listeners this) (HUser f).

Inductive Call :=
| CallHandler (f : nat)
| CallListener (listener : nat).

(** The calls made when handler [h] runs while the signal's entry in
    [listenersMap] is [current]. *)
Fixpoint run (h : Handler) (current : option (list nat)) : list Call :=
  match h with
  | HNull => []
  | HUser f => [CallHandler f]
  | HWrap originalOnAbort =>
    run originalOnAbort current
    ++ match current with
       | Some ls => map CallListener ls
       | None => []
       end
  end.

(** The abort event invokes [onabort]. *)
Definition abort (this : Signal) : list Call :=
  run (onabort this) (listeners this).

End Polyfill.

(** ** Further specification-side definitions *)

Module Aux.
Import Regex StaticAnalyzer Workflow Handler Report.

(** A finding moved down by [k] lines. *)
Definition shift (k : nat) (i : Issue) : Issue :=
  mkIssue (line i + k) (severity i) (message i) (rule i).

(** Every character class of a pattern is unchanged by [f]. *)
Fixpoint invariant_under (f : N -> N) (r : re) : Prop :=
  match r with
  | Empty | Eps => True
  | Cls p => forall c, p (f c) = p c
  | Seq r1 r2 | Alt r1 r2 => invariant_under f r1 /\ invariant_under f r2
  | Star r1 => invariant_under f r1
  end.

(** The ASCII letters of a line in upper case. *)
Definition upper (ln : jsstring) : jsstring := map canonicalize ln.

Definition has_rule (name : string) (i : Issue) : bool :=
  Str.eqb (rule i) (lit name).

(** The successful outcomes of a list, in order. *)
Fixpoint successful_only (l : list Outcome) : list Outcome :=
  match l with
  | [] => []
  | r :: rest =>
    if success r then r :: successful_only rest else successful_only rest
  end.

(** Number of lines of a file's content. *)
Definition line_count (file : SourceFile) : nat :=
  length (split_lines (content file)).

(** The listeners [ls] added one after the other to a signal. *)
Definition add_all (ls : list nat) (s : Polyfill.Signal) : Polyfill.Signal :=
  foldl (fun s l => Polyfill.addEventListener (lit "abort") l s) s ls.

(** A world whose scanner is the repository scanner talking to a GitHub API
    that answers [tree] and [contents]. *)
Definition github_world (tree : Scanner.TreeResponse)
  (contents : jsstring -> Scanner.ContentResponse)
  (decode : jsstring -> jsstring)
  (workflow : option (Input -> Started))
  (post_error : Endpoint.Effect -> option jsstring)
  (t1 t2 : jsstring) : Endpoint.World :=
  Endpoint.mkWorld
    (fun owner repo branch token => Scanner.execute tree contents decode token)
    workflow post_error t1 t2.

(** A request that passes the checks of the handler: a supported event, a
    payload naming the repository as owner/repo, and a token. *)
Definition valid (req : Endpoint.Request) (ev : jsstring)
  (payload : Endpoint.Payload) (owner repo token : jsstring) : Prop :=
  Endpoint.x_github_event req = Some ev
  /\ Endpoint.supported ev = true
  /\ Endpoint.json req = inr payload
  /\ (exists full,
        Endpoint.repository_full_name payload = Some full
        /\ Str.split 47 full !! 0 = Some owner
        /\ Str.split 47 full !! 1 = Some repo)
  /\ owner <> [] /\ repo <> []
  /\ Endpoint.GITHUB_TOKEN req = Some token /\ token <> [].

Definition is_post (e : Endpoint.Effect) : bool :=
  match e with
  | Endpoint.Scan _ _ _ _ => false
  | _ => true
  end.

End Aux.

(** * Properties *)

(** ** The matcher agrees with the declarative meaning of patterns *)

Module RegexFacts.
Import Regex.

Lemma nullable_matches r : nullable r = true <-> matches r [].
Proof.
  split.
  - induction r; simpl; intros H; try discriminate.
    + constructor.
    + apply andb_true_iff in H as [H1 H2].
      change (@nil N) with (@nil N ++ []). constructor; auto.
    + apply orb_true_iff in H as [H|H]; [apply m_alt_l | apply m_alt_r]; auto.
    + constructor.
  - intros H. remember [] as s eqn:E.
    induction H; simpl; subst; try discriminate; auto.
    + apply app_eq_nil in E as [-> ->]. rewrite IHmatches1, IHmatches2; auto.
    + rewrite IHmatches; auto.
    + rewrite IHmatches; auto. apply orb_true_r.
Qed.

Lemma matches_empty_inv s : matches Empty s -> False.
Proof. inversion 1. Qed.

Lemma matches_eps_inv s : matches Eps s -> s = [].
Proof. now inversion 1. Qed.

Lemma matches_seq_inv r1 r2 s :
  matches (Seq r1 r2) s ->
  exists s1 s2, s = s1 ++ s2 /\ matches r1 s1 /\ matches r2 s2.
Proof. inversion 1; subst; eauto. Qed.

Lemma matches_alt_inv r1 r2 s :
  matches (Alt r1 r2) s -> matches r1 s \/ matches r2 s.
Proof. inversion 1; subst; auto. Qed.

Lemma deriv_sound c r : forall s, matches (deriv c r) s -> matches r (c :: s).
Proof.
  induction r as [| |p|r1 IH1 r2 IH2|r1 IH1 r2 IH2|r1 IH1]; simpl; intros s H.
  - now apply matches_empty_inv in H.
  - now apply matches_empty_inv in H.
  - destruct (p c) eqn:E.
    + apply matches_eps_inv in H as ->. now constructor.
    + now apply matches_empty_inv in H.
  - destruct (nullable r1) eqn:E.
    + apply matches_alt_inv in H as [H | H].
      * apply matches_seq_inv in H as (s1 & s2 & -> & H1 & H2).
        change (c :: s1 ++ s2) with ((c :: s1) ++ s2). constructor; auto.
      * change (c :: s) with ([] ++ c :: s). constructor; auto.
        now apply nullable_matches.
    + apply matches_seq_inv in H as (s1 & s2 & -> & H1 & H2).
      change (c :: s1 ++ s2) with ((c :: s1) ++ s2). constructor; auto.
  - apply matches_alt_inv in H as [H | H]; [apply m_alt_l | apply m_alt_r]; auto.
  - apply matches_seq_inv in H as (s1 & s2 & -> & H1 & H2).
    change (c :: s1 ++ s2) with ((c :: s1) ++ s2). constructor; auto.
Qed.

Lemma deriv_complete c r s0 :
  matches r s0 -> forall t, s0 = c :: t -> matches (deriv c r) t.
Proof.
  induction 1 as [|p c0 Hp|r1 r2 s1 s2 H1 IH1 H2 IH2|r1 r2 s H IH
                 |r1 r2 s H IH|r|r s1 s2 H1 IH1 H2 IH2]; intros t E; simpl.
  - discriminate.
  - injection E as -> <-. rewrite Hp. constructor.
  - destruct s1 as [|c1 s1].
    + simpl in E. subst s2.
      apply nullable_matches in H1. rewrite H1. apply m_alt_r. auto.
    + injection E as -> <-.
      destruct (nullable r1); [apply m_alt_l|]; constructor; auto.
  - apply m_alt_l; auto.
  - apply m_alt_r; auto.
  - discriminate.
  - destruct s1 as [|c1 s1].
    + simpl in E. auto.
    + injection E as -> <-. constructor; auto.
Qed.

Lemma deriv_matches c r s : matches (deriv c r) s <-> matches r (c :: s).
Proof.
  split; [apply deriv_sound | intros H; now apply (deriv_complete c r (c :: s))].
Qed.

Lemma match_prefix_spec s : forall r,
  match_prefix r s = true <-> exists s1 s2, s = s1 ++ s2 /\ matches r s1.
Proof.
  induction s as [|c s IH]; intros r; simpl.
  - rewrite orb_false_r, nullable_matches. split.
    + intros H. now exists [], [].
    + intros (s1 & s2 & E & H). symmetry in E.
      apply app_eq_nil in E as [-> _]. exact H.
  - rewrite orb_true_iff, nullable_matches, IH. split.
    + intros [H | (s1 & s2 & -> & H)].
      * now exists [], (c :: s).
      * exists (c :: s1), s2. split; [reflexivity | now apply deriv_matches].
    + intros (s1 & s2 & E & H). destruct s1 as [|c1 s1].
      * now left.
      * injection E as <- ->. right. exists s1, s2.
        split; [reflexivity | now apply deriv_matches].
Qed.

(** [test] is substring search for the language of the pattern. *)
Lemma test_spec s : forall r,
  test r s = true <->
  exists pre m suf, s = pre ++ m ++ suf /\ matches r m.
Proof.
  induction s as [|c s IH]; intros r; simpl.
  - rewrite orb_false_r. change (nullable r || false) with (match_prefix r []).
    rewrite match_prefix_spec. split.
    + intros (s1 & s2 & E & H). now exists [], s1, s2.
    + intros (pre & m & suf & E & H). symmetry in E.
      apply app_eq_nil in E as [-> E]. apply app_eq_nil in E as [-> ->].
      now exists [], [].
  - rewrite orb_true_iff, IH.
    change (nullable r || match_prefix (deriv c r) s)
      with (match_prefix r (c :: s)).
    rewrite match_prefix_spec. split.
    + intros [(s1 & s2 & E & H) | (pre & m & suf & -> & H)].
      * now exists [], s1, s2.
      * now exists (c :: pre), m, suf.
    + intros (pre & m & suf & E & H). destruct pre as [|c1 pre].
      * left. now exists m, suf.
      * injection E as <- ->. right. now exists pre, m, suf.
Qed.

(** A whole string is in the language when the iterated derivative is
    nullable. *)
Lemma matches_by_derivatives s : forall r,
  nullable (foldl (fun r c => deriv c r) r s) = true -> matches r s.
Proof.
  induction s as [|c s IH]; intros r; simpl.
  - apply nullable_matches.
  - intros H. apply deriv_matches. now apply IH.
Qed.

Lemma test_anywhere r m pre suf :
  nullable (foldl (fun r c => deriv c r) r m) = true ->
  test r (pre ++ m ++ suf) = true.
Proof.
  intros H. apply test_spec. exists pre, m, suf.
  split; [reflexivity | now apply matches_by_derivatives].
Qed.

End RegexFacts.

(** ** StaticAnalyzer *)

Module AnalyzerFacts.
Import Regex StaticAnalyzer Spec.

Lemma check_line_findings acc ln idx :
  check_line acc ln idx = acc ++ line_findings ln idx.
Proof.
  unfold check_line, line_findings, push_if.
  destruct (test re_console ln), (test re_secret ln), (test re_todo ln);
    simpl; rewrite <- ?app_assoc, ?app_nil_r; reflexivity.
Qed.

Lemma forEach_findings lines : forall idx acc,
  forEach_from idx lines acc = acc ++ findings_from idx lines.
Proof.
  induction lines as [|ln rest IH]; intros idx acc; simpl.
  - now rewrite app_nil_r.
  - now rewrite IH, check_line_findings, app_assoc.
Qed.

Lemma execute_issues code fileName :
  issues (execute code fileName) = findings_from 0 (split_lines code).
Proof. unfold execute; simpl. now rewrite forEach_findings. Qed.

Lemma count_severity_tally s l : count_severity s l = tally s l.
Proof.
  unfold count_severity. induction l as [|i l IH]; [reflexivity|].
  rewrite filter_cons. simpl.
  destruct (decide (severity_eqb (severity i) s = true)) as [E|E];
    destruct (severity i), s; simpl in *; try congruence; now rewrite IH.
Qed.

Lemma tally_length l :
  tally error l + tally warning l + tally info l = length l.
Proof.
  induction l as [|i l IH]; [reflexivity|].
  simpl. destruct (severity i); lia.
Qed.

Lemma line_findings_length ln idx : length (line_findings ln idx) <= 3.
Proof.
  unfold line_findings.
  destruct (test re_console ln), (test re_secret ln), (test re_todo ln);
    simpl; lia.
Qed.

Lemma line_findings_line ln idx :
  Forall (fun i => line i = idx + 1) (line_findings ln idx).
Proof.
  unfold line_findings.
  destruct (test re_console ln), (test re_secret ln), (test re_todo ln);
    simpl; repeat constructor.
Qed.

Lemma findings_from_lines lines : forall idx,
  Forall (fun i => idx + 1 <= line i <= idx + length lines)
         (findings_from idx lines).
Proof.
  induction lines as [|ln rest IH]; intros idx; simpl; [constructor|].
  apply Forall_app. split.
  - eapply Forall_impl; [apply line_findings_line|].
    simpl. intros i ->. lia.
  - eapply Forall_impl; [apply IH|]. simpl. intros i Hi. lia.
Qed.

Lemma on_line_none n l :
  Forall (fun i => line i <> n) l -> on_line n l = 0.
Proof.
  unfold on_line. induction 1 as [|i l Hi _ IH]; [reflexivity|].
  rewrite filter_cons. destruct (decide (line i = n)); [contradiction|exact IH].
Qed.

Lemma on_line_le n l : on_line n l <= length l.
Proof. apply length_filter. Qed.

Lemma on_line_app n l1 l2 : on_line n (l1 ++ l2) = on_line n l1 + on_line n l2.
Proof. unfold on_line. now rewrite filter_app, length_app. Qed.

Lemma findings_from_on_line n lines : forall idx,
  on_line n (findings_from idx lines) <= 3.
Proof.
  induction lines as [|ln rest IH]; intros idx; simpl; [unfold on_line; simpl; lia|].
  rewrite on_line_app.
  destruct (decide (n = idx + 1)) as [->|Hn].
  - rewrite (on_line_none _ (findings_from (S idx) rest)).
    + pose proof (on_line_le (idx + 1) (line_findings ln idx)).
      pose proof (line_findings_length ln idx). lia.
    + eapply Forall_impl; [apply findings_from_lines|]. simpl. intros i Hi. lia.
  - rewrite (on_line_none _ (line_findings ln idx)).
    + apply IH.
    + eapply Forall_impl; [apply line_findings_line|]. simpl. intros i ->. lia.
Qed.

Lemma findings_from_length lines : forall idx,
  length (findings_from idx lines) <= 3 * length lines.
Proof.
  induction lines as [|ln rest IH]; intros idx; simpl; [lia|].
  rewrite length_app. pose proof (line_findings_length ln idx).
  specialize (IH (S idx)). lia.
Qed.

(** The scenarios of the analyzer's documentation. *)
Example hardcoded_password_scenario :
  execute (lit "password = " ++ dq ++ lit "secret123" ++ dq) (lit "a.ts")
  = mkStaticResult [secret_issue 0] (mkSummary 1 1 0).
Proof. vm_compute. reflexivity. Qed.

Example console_and_todo_scenario :
  execute (lit "console.log(" ++ dq ++ lit "x" ++ dq ++ lit ")" ++ nl
           ++ lit "// TODO: fix") (lit "a.ts")
  = mkStaticResult [console_issue 0; todo_issue 1] (mkSummary 2 0 1).
Proof. vm_compute. reflexivity. Qed.

Example trailing_newline_is_an_empty_last_line :
  split_lines (lit "a" ++ nl) = [lit "a"; []].
Proof. reflexivity. Qed.

(** C6.  For every code string and file name, the summary of the analyzer's
    result counts its own issue list: [total] is the length of [issues],
    [errors] the number of issues of severity error, [warnings] the number
    of severity warning, so that errors + warnings <= total (the remainder
    being the info findings). *)
Theorem execute_summary_counts (code fileName : jsstring) :
  let r := execute code fileName in
  total (summary r) = length (issues r)
  /\ errors (summary r) = tally error (issues r)
  /\ warnings (summary r) = tally warning (issues r)
  /\ errors (summary r) + warnings (summary r) <= total (summary r)
  /\ total (summary r) - errors (summary r) - warnings (summary r)
     = tally info (issues r).
Proof.
  unfold execute; simpl. rewrite !count_severity_tally.
  set (l := forEach_from 0 (split_lines code) []).
  pose proof (tally_length l). repeat split; lia.
Qed.

(** C8.  On the empty string the analyzer returns no issue and the summary
    {total: 0, errors: 0, warnings: 0}, whatever the file name. *)
Theorem execute_empty_code (fileName : jsstring) :
  execute [] fileName = mkStaticResult [] (mkSummary 0 0 0).
Proof. reflexivity. Qed.

(** C9.  Every finding carries a line number between 1 and the number of
    lines obtained by splitting the code on line feeds, no line number is
    shared by more than three findings, and the number of findings is at
    most three times the number of lines. *)
Theorem execute_line_numbers (code fileName : jsstring) :
  let r := execute code fileName in
  let n := length (split_lines code) in
  Forall (fun i => 1 <= line i <= n) (issues r)
  /\ (forall k, on_line k (issues r) <= 3)
  /\ length (issues r) <= 3 * n.
Proof.
  cbv zeta. rewrite execute_issues. split; [|split].
  - eapply Forall_impl; [apply (findings_from_lines _ 0)|].
    simpl. intros i Hi. lia.
  - intros k. apply findings_from_on_line.
  - apply findings_from_length.
Qed.

Lemma filter_all {A} (P : A -> Prop) `{forall x, Decision (P x)} (l : list A) :
  Forall P l -> filter P l = l.
Proof.
  induction 1 as [|x l Hx _ IH]; [reflexivity|].
  rewrite filter_cons. destruct (decide (P x)); [now rewrite IH|contradiction].
Qed.

Lemma filter_none {A} (P : A -> Prop) `{forall x, Decision (P x)} (l : list A) :
  Forall (fun x => ~ P x) l -> filter P l = [].
Proof.
  induction 1 as [|x l Hx _ IH]; [reflexivity|].
  rewrite filter_cons. destruct (decide (P x)); [contradiction|exact IH].
Qed.

Lemma findings_from_at lines : forall idx k ln,
  lines !! k = Some ln ->
  filter (fun i => line i = idx + k + 1) (findings_from idx lines)
  = line_findings ln (idx + k).
Proof.
  induction lines as [|l0 rest IH]; intros idx k ln Hk; [discriminate|].
  simpl. rewrite filter_app. destruct k as [|k]; simpl in Hk.
  - injection Hk as ->. rewrite Nat.add_0_r.
    rewrite filter_all by apply line_findings_line.
    rewrite filter_none; [apply app_nil_r|].
    eapply Forall_impl; [apply findings_from_lines|]. simpl. intros i Hi. lia.
  - rewrite filter_none.
    + simpl. replace (idx + S k) with (S idx + k) by lia. now apply IH.
    + eapply Forall_impl; [apply line_findings_line|]. simpl. intros i ->. lia.
Qed.

(** The claim of C7 as first stated fails: this line matches the debug-print
    and the hardcoded-secret pattern, and the analyzer reports three findings
    for it, not two. *)
Lemma both_patterns_and_todo_three_findings :
  let ln := lit "console.log(token = 'x') // TODO" in
  test re_console ln = true
  /\ test re_secret ln = true
  /\ on_line 1 (issues (execute ln (lit "a.ts"))) = 3
  /\ filter (fun i => line i = 1) (issues (execute ln (lit "a.ts")))
     <> [console_issue 0; secret_issue 0].
Proof. vm_compute. repeat split; congruence. Qed.

(** C7 (amended).  The findings the analyzer reports for a line of the code
    are those of the three rules applied to that line alone, in the fixed
    order no-console, no-hardcoded-secrets, todo-comment (zero to three of
    them); for a line matching the debug-print and the hardcoded-secret
    pattern they are no-console (warning) then no-hardcoded-secrets (error),
    followed by todo-comment exactly when the line also matches the TODO
    pattern; and the issue list is the findings of the lines in line
    order. *)
Theorem findings_of_a_line_in_rule_order
  (code fileName : jsstring) (k : nat) (ln : jsstring) :
  split_lines code !! k = Some ln ->
  let here :=
    filter (fun i => line i = k + 1) (issues (execute code fileName)) in
  here = line_findings ln k
  /\ length here <= 3
  /\ (test re_console ln = true -> test re_secret ln = true ->
      here = [console_issue k; secret_issue k]
             ++ (if test re_todo ln then [todo_issue k] else [])
      /\ severity (console_issue k) = warning
      /\ severity (secret_issue k) = error)
  /\ (test re_console ln = true -> test re_secret ln = true ->
      test re_todo ln = false ->
      here = [console_issue k; secret_issue k])
  /\ issues (execute code fileName) = findings_from 0 (split_lines code).
Proof.
  intros Hk. cbv zeta. rewrite execute_issues.
  pose proof (findings_from_at _ 0 k ln Hk) as E. simpl in E. rewrite E.
  split; [reflexivity|]. split; [apply line_findings_length|].
  unfold line_findings. split; [|split; [|reflexivity]].
  - intros -> ->. repeat split.
  - intros -> -> ->. reflexivity.
Qed.

Lemma findings_of_a_line_in_rule_order_witness :
  let code := lit "let a = 1;" ++ nl ++ lit "console.log(token = 'x')" in
  let ln := lit "console.log(token = 'x')" in
  split_lines code !! 1 = Some ln
  /\ test re_console ln = true /\ test re_secret ln = true
  /\ test re_todo ln = false
  /\ filter (fun i => line i = 2) (issues (execute code (lit "a.ts")))
     = [console_issue 1; secret_issue 1].
Proof.
  cbv zeta.
  split; [reflexivity|]. split; [reflexivity|].
  split; [reflexivity|]. split; [reflexivity|].
  apply (findings_of_a_line_in_rule_order
           (lit "let a = 1;" ++ nl ++ lit "console.log(token = 'x')")
           (lit "a.ts") 1 (lit "console.log(token = 'x')"));
    reflexivity.
Defined.

(** C10.  The hardcoded-secret rule looks at the characters of the line
    only: the commented-out assignment and the longer identifier of the two
    example lines are reported as errors of rule no-hardcoded-secrets, and
    so is every line that contains such an assignment anywhere, whatever
    precedes and follows it. *)
Theorem secret_rule_ignores_context :
  (forall fileName,
     issues (execute (lit "// password = " ++ dq ++ lit "x" ++ dq) fileName)
     = [mkIssue 1 error (lit "Hardcoded secret detected")
                (lit "no-hardcoded-secrets")])
  /\ (forall fileName,
     issues (execute (lit "mytoken = " ++ dq ++ lit "y" ++ dq) fileName)
     = [mkIssue 1 error (lit "Hardcoded secret detected")
                (lit "no-hardcoded-secrets")])
  /\ (forall acc pre suf idx,
     In (mkIssue (idx + 1) error (lit "Hardcoded secret detected")
                 (lit "no-hardcoded-secrets"))
        (check_line acc (pre ++ (lit "token = " ++ dq ++ lit "y" ++ dq) ++ suf)
                    idx)).
Proof.
  split; [|split].
  - intros fileName. vm_compute. reflexivity.
  - intros fileName. vm_compute. reflexivity.
  - intros acc pre suf idx. rewrite check_line_findings.
    apply in_or_app. right. unfold line_findings.
    rewrite (RegexFacts.test_anywhere re_secret) by (vm_compute; reflexivity).
    apply in_or_app. right. apply in_or_app. left. left. reflexivity.
Qed.

End AnalyzerFacts.

(** ** Fan-out and statistics of the handler *)

Module HandlerFacts.
Import StaticAnalyzer Workflow Handler Spec.

Lemma settle_length {A} (values : list A) slots i :
  length (settle values slots i) = length slots.
Proof. unfold settle. destruct (values !! i); [apply length_insert|reflexivity]. Qed.

Lemma foldl_settle_length {A} (values : list A) order : forall slots,
  length (foldl (settle values) slots order) = length slots.
Proof.
  induction order as [|x order IH]; intros slots; simpl; [reflexivity|].
  now rewrite IH, settle_length.
Qed.

(** After the promises of [order] have settled, exactly their slots hold
    their values; the other slots are as before. *)
Lemma foldl_settle_lookup {A} (values : list A) order : forall slots i,
  length slots = length values ->
  foldl (settle values) slots order !! i
  = if decide (i ∈ order) then Some <$> values !! i else slots !! i.
Proof.
  induction order as [|x order IH]; intros slots i Hlen; simpl.
  - destruct (decide (i ∈ [])) as [Hin|_]; [inversion Hin|reflexivity].
  - rewrite IH by now rewrite settle_length.
    destruct (decide (i ∈ order)) as [Hin|Hnin].
    + rewrite decide_True by (now right). reflexivity.
    + destruct (decide (i = x)) as [->|Hne].
      * rewrite decide_True by (now left). unfold settle.
        destruct (values !! x) as [v|] eqn:Ev; simpl.
        -- apply list_lookup_insert_eq. rewrite Hlen.
           now apply lookup_lt_Some in Ev.
        -- apply lookup_ge_None. rewrite Hlen. now apply lookup_ge_None.
      * rewrite decide_False by (intros Hin; apply elem_of_cons in Hin as [?|?];
                                 contradiction).
        unfold settle. destruct (values !! x); [|reflexivity].
        now apply list_lookup_insert_ne.
Qed.

(** [Promise.all] gives the values in the order of the promises once each
    of them has settled, whatever the order of settlement. *)
Lemma promise_all_in_input_order {A} (values : list A) (completion : list nat) :
  completion ≡ₚ seq 0 (length values) ->
  promise_all values completion = Some values.
Proof.
  intros Hperm. unfold promise_all.
  assert (E : foldl (settle values) (replicate (length values) None) completion
              = Some <$> values).
  { apply list_eq. intros i.
    rewrite foldl_settle_lookup by apply length_replicate.
    rewrite list_lookup_fmap.
    destruct (decide (i ∈ completion)) as [_|Hnin]; [reflexivity|].
    destruct (values !! i) as [v|] eqn:Ev.
    - exfalso. apply Hnin. rewrite Hperm. apply elem_of_seq.
      apply lookup_lt_Some in Ev. lia.
    - simpl. apply lookup_ge_None. rewrite length_replicate.
      now apply lookup_ge_None. }
  rewrite E. apply mapM_Some. apply Forall2_fmap_l.
  apply Forall_Forall2_diag. now apply Forall_forall.
Qed.

Lemma workflow_fileName agent inp out :
  codeReviewWorkflow agent inp = inr out -> out_fileName out = in_fileName inp.
Proof.
  unfold codeReviewWorkflow, staticAnalysisStep, aiReviewStep; simpl.
  destruct agent as [generate|]; simpl; [|discriminate].
  destruct (generate _); simpl; [|discriminate].
  intros E. injection E as <-. reflexivity.
Qed.

Lemma reviewFile_fileName how agent file :
  fileName (reviewFile (start how agent) file) = path file.
Proof.
  unfold reviewFile, start.
  destruct (codeReviewWorkflow agent _) as [msg|out] eqn:E.
  - destruct how; reflexivity.
  - simpl. now rewrite (workflow_fileName _ _ _ E).
Qed.

(** The workflow consults the agent on the prompt of its own file only. *)
Lemma workflow_agent_local agent agent' file :
  agent_reply agent (prompt_of file) = agent_reply agent' (prompt_of file) ->
  codeReviewWorkflow agent (input_of file)
  = codeReviewWorkflow agent' (input_of file).
Proof.
  unfold codeReviewWorkflow, staticAnalysisStep, aiReviewStep, agent_reply,
    prompt_of, input_of; simpl.
  destruct agent as [g|], agent' as [g'|]; simpl; try discriminate;
    [|reflexivity].
  intros E. injection E as E. now rewrite E.
Qed.

Lemma reviewFile_no_staticResult start file :
  staticResult (reviewFile start file) = None.
Proof. unfold reviewFile. destruct (start _) as [out| | |]; reflexivity. Qed.

Lemma foldl_sum {A} (f : A -> nat) l : forall acc,
  foldl (fun sum r => sum + f r) acc l = acc + foldl (fun sum r => sum + f r) 0 l.
Proof.
  induction l as [|x l IH]; intros acc; simpl; [lia|].
  rewrite IH, (IH (f x)). lia.
Qed.

Lemma total_sum_successful (f : Metrics -> nat) l :
  foldl (fun sum r => sum + match metrics r with Some m => f m | None => 0 end)
        0 (filter (fun r => success r = true) l)
  = sum_successful f l.
Proof.
  induction l as [|r l IH]; [reflexivity|].
  rewrite filter_cons. simpl.
  destruct (decide (success r = true)) as [E|E].
  - rewrite E. simpl. rewrite foldl_sum, IH. destruct (metrics r); lia.
  - apply not_true_is_false in E. rewrite E. exact IH.
Qed.

Lemma omap_step {A B} (f : A -> option B) x l :
  omap f (x :: l)
  = match f x with Some y => y :: omap f l | None => omap f l end.
Proof. reflexivity. Qed.

Lemma critical_files_spec l :
  omap critical_of (filter (fun r => success r = true) l) = critical_spec l.
Proof.
  induction l as [|r l IH]; [reflexivity|].
  rewrite filter_cons. cbn [critical_spec].
  destruct (decide (success r = true)) as [E|E].
  - rewrite E, omap_step, IH. unfold critical_of.
    destruct (metrics r) as [m|]; [|reflexivity].
    destruct (0 <? staticErrors m); reflexivity.
  - apply not_true_is_false in E. rewrite E. exact IH.
Qed.

Lemma critical_spec_origin l :
  Forall (fun c => exists r m,
            In r l /\ success r = true /\ metrics r = Some m
            /\ 0 < staticErrors m
            /\ c = mkCritical (fileName r) (staticErrors m))
         (critical_spec l).
Proof.
  induction l as [|r l IH]; simpl; [constructor|].
  assert (IH' : Forall (fun c => exists r0 m,
            (r = r0 \/ In r0 l) /\ success r0 = true /\ metrics r0 = Some m
            /\ 0 < staticErrors m
            /\ c = mkCritical (fileName r0) (staticErrors m))
         (critical_spec l)).
  { eapply Forall_impl; [exact IH|]. simpl.
    intros c (r0 & m & Hin & H). exists r0, m. split; [now right|exact H]. }
  destruct (success r) eqn:Es; [|exact IH'].
  destruct (metrics r) as [m|] eqn:Em; [|exact IH'].
  destruct (0 <? staticErrors m) eqn:Ee; [|exact IH'].
  constructor; [|exact IH'].
  exists r, m. apply Nat.ltb_lt in Ee. repeat split; auto.
Qed.

(** C3.  When every per-file promise has settled, in whatever order, the
    fan-out gives one outcome per scanned file, the outcome at an index being
    that of the file at the same index and carrying its path as fileName.
    A review that throws is recorded for its own file as
    {success: false, fileName, error: message} (when the workflow engine
    reports the failure through a status instead, the error is the message
    the engine gives, or the fixed text of the handler), and the outcome of
    a file depends on what the agent does on that file's prompt only:
    whatever the agent does on other files, this file's outcome is the
    same. *)
Theorem fan_out_one_outcome_per_file
  (how : Surfacing) (agent : Agent) (files : list SourceFile)
  (completion : list nat) :
  completion ≡ₚ seq 0 (length files) ->
  exists results : list Outcome,
    review_all (start how agent) files completion = Some results
    /\ length results = length files
    /\ forall i file, files !! i = Some file ->
       exists o, results !! i = Some o
         /\ o = reviewFile (start how agent) file
         /\ fileName o = path file
         /\ (forall msg, start how agent (input_of file) = Threw msg ->
               o = mkOutcome false (path file) None None None (Some msg))
         /\ (forall msg, codeReviewWorkflow agent (input_of file) = inl msg ->
               o = mkOutcome false (path file) None None None
                     (match how with
                      | AsFailed | AsThrow => Some msg
                      | AsFailedNoMessage => None
                      | AsOther => Some (lit "Workflow execution failed")
                      end))
         /\ (forall agent',
               agent_reply agent' (prompt_of file)
               = agent_reply agent (prompt_of file) ->
               reviewFile (start how agent') file = o).
Proof.
  intros Hperm. exists (map (reviewFile (start how agent)) files).
  split; [|split].
  - unfold review_all. apply promise_all_in_input_order.
    now rewrite length_map.
  - apply length_map.
  - intros i file Hi. exists (reviewFile (start how agent) file).
    split; [|split; [|split; [|split; [|split]]]].
    + rewrite list_lookup_fmap, Hi. reflexivity.
    + reflexivity.
    + apply reviewFile_fileName.
    + intros msg E. unfold reviewFile. fold (input_of file). now rewrite E.
    + intros msg E. unfold reviewFile, start. fold (input_of file).
      rewrite E. destruct how; reflexivity.
    + intros agent' E. unfold reviewFile, start. fold (input_of file).
      now rewrite (workflow_agent_local agent' agent file E).
Qed.

Lemma fan_out_one_outcome_per_file_witness :
  let agent : Agent :=
    Some (fun p => if bool_decide (p_fileName p = lit "b.ts")
                   then Rejected (lit "model unavailable")
                   else Response (Some (lit "fine"))) in
  let files := [mkFile (lit "a.ts") (lit "let token = 'abc';") 18;
                mkFile (lit "b.ts") (lit "console.log(1)") 14;
                mkFile (lit "c.ts") (lit "// TODO") 7] in
  [2; 0; 1] ≡ₚ seq 0 (length files)
  /\ exists results : list Outcome,
    review_all (start AsThrow agent) files [2; 0; 1] = Some results
    /\ length results = length files
    /\ forall i file, files !! i = Some file ->
       exists o, results !! i = Some o
         /\ o = reviewFile (start AsThrow agent) file
         /\ fileName o = path file
         /\ (forall msg, start AsThrow agent (input_of file) = Threw msg ->
               o = mkOutcome false (path file) None None None (Some msg))
         /\ (forall msg, codeReviewWorkflow agent (input_of file) = inl msg ->
               o = mkOutcome false (path file) None None None (Some msg))
         /\ (forall agent',
               agent_reply agent' (prompt_of file)
               = agent_reply agent (prompt_of file) ->
               reviewFile (start AsThrow agent') file = o).
Proof.
  cbv zeta. split.
  - apply (Permutation_cons_append [0; 1] 2).
  - apply fan_out_one_outcome_per_file.
    apply (Permutation_cons_append [0; 1] 2).
Defined.

Lemma successful_only_filter l :
  filter (fun r => success r = true) l = Aux.successful_only l.
Proof.
  induction l as [|r l IH]; [reflexivity|].
  rewrite filter_cons. simpl.
  destruct (decide (success r = true)) as [E|E].
  - now rewrite E, IH.
  - apply not_true_is_false in E. now rewrite E.
Qed.

Lemma successful_only_spec l :
  Forall (fun r => success r = true /\ In r l) (Aux.successful_only l)
  /\ (forall r, In r l -> success r = true -> In r (Aux.successful_only l)).
Proof.
  induction l as [|r l [IH1 IH2]]; simpl.
  - split; [constructor|tauto].
  - assert (IH1' : Forall (fun x => success x = true /\ (r = x \/ In x l))
                          (Aux.successful_only l)).
    { eapply Forall_impl; [exact IH1|]. simpl. tauto. }
    destruct (success r) eqn:E.
    + split; [constructor; auto|].
      intros x [<-|Hx] Hs; [now left|right; auto].
    + split; [exact IH1'|].
      intros x [<-|Hx] Hs; [congruence|auto].
Qed.

(** The claim of C4 as first stated fails in its last part: of two outcomes,
    one successful and one failed, the aggregate the handler hands to the
    report composer keeps the successful one only. *)
Lemma failed_outcome_dropped_from_aggregate :
  let ok := mkOutcome true (lit "a.ts") (Some (lit "report"))
                      (Some (mkMetrics 2 1)) None None in
  let failed := mkOutcome false (lit "b.ts") None None None
                          (Some (lit "model unavailable")) in
  let data := Report.report_data (lit "octo/demo") (lit "main") (lit "push") 2
                                 (statistics [ok; failed]) in
  In failed [ok; failed]
  /\ success failed = false
  /\ Report.d_results data = [ok]
  /\ ~ In failed (Report.d_results data).
Proof.
  cbv zeta. split; [right; left; reflexivity|]. split; [reflexivity|].
  split; [reflexivity|].
  intros [H|[]]. discriminate.
Qed.

(** C4 (amended).  For any sequence of outcomes, the aggregate the handler
    builds for the report composer has totalIssues and totalErrors equal to
    the sums of metrics.staticIssues and metrics.staticErrors over the
    successful outcomes only, its criticalFiles is the order-preserving list
    of {fileName, errors} of the successful outcomes with staticErrors > 0
    (so every entry comes from a successful outcome), and its outcome list
    (results) holds exactly the successful outcomes, in input order: failed
    outcomes are excluded from criticalFiles and from that list as well. *)
Theorem statistics_over_successful
  (rs : list Outcome) (repository branch eventType : jsstring)
  (totalFiles : nat) :
  let data := Report.report_data repository branch eventType totalFiles
                                 (statistics rs) in
  Report.d_totalIssues data = sum_successful staticIssues rs
  /\ Report.d_totalErrors data = sum_successful staticErrors rs
  /\ Report.d_criticalFiles data = critical_spec rs
  /\ Forall (fun c => exists r m,
               In r rs /\ success r = true /\ metrics r = Some m
               /\ 0 < staticErrors m
               /\ c = mkCritical (fileName r) (staticErrors m))
            (Report.d_criticalFiles data)
  /\ Report.d_results data = Aux.successful_only rs
  /\ Forall (fun r => success r = true /\ In r rs) (Report.d_results data)
  /\ (forall r, In r rs -> success r = true -> In r (Report.d_results data)).
Proof.
  cbv zeta. unfold Report.report_data, statistics.
  cbn [Report.d_totalIssues Report.d_totalErrors Report.d_criticalFiles
       Report.d_results totalIssues totalErrors criticalFiles successResults].
  destruct (successful_only_spec rs) as [S1 S2].
  split; [apply (total_sum_successful staticIssues)|].
  split; [apply (total_sum_successful staticErrors)|].
  split; [apply critical_files_spec|].
  split; [rewrite critical_files_spec; apply critical_spec_origin|].
  rewrite successful_only_filter.
  split; [reflexivity|]. split; assumption.
Qed.

End HandlerFacts.

(** ** The report composer *)

Module ReportFacts.
Import StaticAnalyzer Workflow Handler Report Webhook Spec.

Lemma parts_header data now :
  parts data now
  = Header (repository data) (branch data) (eventType data) now
    :: body_parts data.
Proof. reflexivity. Qed.

Lemma detail_blocks_parts data now :
  detail_blocks (parts data now)
  = if 0 <? d_totalIssues data
    then map block_of (take 10 (omap with_issues (d_results data)))
    else [].
Proof.
  unfold detail_blocks, parts.
  destruct (0 <? d_totalErrors data), (0 <? d_totalIssues data); simpl;
    now rewrite ?app_nil_r.
Qed.

Lemma excess_spec n k :
  excess n k = if decide (k < n) then Some (n - k) else None.
Proof.
  unfold excess. destruct (k <? n) eqn:E.
  - apply Nat.ltb_lt in E. now rewrite decide_True.
  - apply Nat.ltb_ge in E. rewrite decide_False; [reflexivity|lia].
Qed.

Lemma block_of_findings rm : length (b_findings (block_of rm)) <= 5.
Proof. destruct rm as [r m]. simpl. rewrite length_take. lia. Qed.

(** The parts of a report, whatever the input: no priority-fixes part when
    totalErrors is 0, at most 10 per-file blocks in the detailed list and at
    most 5 finding lines in any block; the blocks are those of the first 10
    outcomes with staticIssues > 0, each with the first 5 findings of its
    file and, when the file has more, the number left out; and when more
    than 10 outcomes qualify the detailed list states how many files were
    left out. *)
Theorem report_truncation (data : ReportData) (now : jsstring) :
  let ps := parts data now in
  let qualifying := omap with_issues (d_results data) in
  generateReportMarkdown data now = concat (map render ps)
  /\ (d_totalErrors data = 0 -> Forall (fun p => is_priority p = false) ps)
  /\ length (detail_blocks ps) <= 10
  /\ Forall (fun b => length (b_findings b) <= 5) (detail_blocks ps)
  /\ (0 < d_totalIssues data ->
      In (Details (detail_blocks ps)
                  (if decide (10 < length qualifying)
                   then Some (length qualifying - 10) else None)) ps
      /\ Forall2 (fun rm b =>
                    b_fileName b = fileName (fst rm)
                    /\ b_findings b = first_findings (fst rm)
                    /\ b_omitted b =
                       if decide (5 < length (issues_of (fst rm)))
                       then Some (length (issues_of (fst rm)) - 5) else None)
                 (take 10 qualifying) (detail_blocks ps)).
Proof.
  cbv zeta. split; [reflexivity|]. split; [|split; [|split]].
  - intros E. unfold parts. rewrite E. simpl.
    destruct (0 <? d_totalIssues data); repeat constructor.
  - rewrite detail_blocks_parts. destruct (0 <? d_totalIssues data); simpl; [|lia].
    rewrite length_map, length_take. lia.
  - rewrite detail_blocks_parts. destruct (0 <? d_totalIssues data); [|constructor].
    apply Forall_forall. intros b Hb. apply list_elem_of_In in Hb.
    apply in_map_iff in Hb as (rm & <- & _). apply block_of_findings.
  - intros Hpos. rewrite detail_blocks_parts. unfold parts.
    apply Nat.ltb_lt in Hpos. rewrite Hpos. split.
    + rewrite <- excess_spec. apply in_or_app. right. apply in_or_app. right.
      apply in_or_app. left. left. reflexivity.
    + apply Forall2_fmap_r. apply Forall_Forall2_diag. apply Forall_forall.
      intros [r m] _. simpl. rewrite <- excess_spec. auto.
Qed.

(** Twelve successful outcomes, eleven of them with issues and seven findings
    each, no error: no priority part, ten blocks of five findings that each
    note two findings left out, and a note that one more file has issues. *)
Lemma report_truncation_witness :
  let finding n := mkIssue n warning (lit "Debug statement found")
                           (lit "no-console") in
  let sr := mkStaticResult (map finding (seq 1 7)) (mkSummary 7 0 7) in
  let hit n := mkOutcome true (lit "src/" ++ show_nat n ++ lit ".ts")
                         (Some (lit "report")) (Some (mkMetrics 7 0))
                         (Some sr) None in
  let clean := mkOutcome true (lit "src/clean.ts") (Some (lit "report"))
                         (Some (mkMetrics 0 0)) None None in
  let rs := clean :: map hit (seq 1 11) in
  let data := mkReportData (lit "octo/demo") (lit "main") (lit "push")
                           12 77 0 [] rs in
  let ps := parts data (lit "2024-01-01T12:00:00.000Z") in
  d_totalErrors data = 0
  /\ 0 < d_totalIssues data
  /\ Forall (fun p => is_priority p = false) ps
  /\ length (detail_blocks ps) = 10
  /\ Forall (fun b => length (b_findings b) = 5 /\ b_omitted b = Some 2)
            (detail_blocks ps)
  /\ In (Details (detail_blocks ps) (Some 1)) ps.
Proof.
  cbv zeta.
  match goal with
  | |- d_totalErrors ?d = 0 /\ _ =>
    destruct (report_truncation d (lit "2024-01-01T12:00:00.000Z"))
      as (_ & Hprio & _ & _ & Hdet)
  end.
  split; [reflexivity|]. split; [vm_compute; lia|].
  split; [exact (Hprio eq_refl)|].
  split; [reflexivity|].
  split; [vm_compute; repeat constructor|].
  refine (proj1 (Hdet _)). vm_compute. lia.
Defined.

(** The claim of C2 as first stated fails: two calls on the same input, made
    one second apart, return different strings. *)
Lemma report_changes_with_the_clock :
  let data := mkReportData (lit "octo/demo") (lit "main") (lit "push")
                           0 0 0 [] [] in
  generateReportMarkdown data (lit "2024-01-01T12:00:00.000Z")
  <> generateReportMarkdown data (lit "2024-01-01T12:00:01.000Z").
Proof. vm_compute. congruence. Qed.

(** C2 (amended).  The composer reads the generation timestamp from the clock
    itself; its result is a function of the input and of that reading: the
    text before and the text after the timestamp depend on the input only,
    so two calls on the same input return identical strings exactly when
    their clock readings are identical. *)
Theorem report_determined_by_input_and_clock (data : ReportData) :
  (forall now,
     generateReportMarkdown data now
     = header_prefix data ++ now ++ report_suffix data)
  /\ (forall now1 now2,
     generateReportMarkdown data now1 = generateReportMarkdown data now2
     <-> now1 = now2).
Proof.
  assert (E : forall now, generateReportMarkdown data now
                          = header_prefix data ++ now ++ report_suffix data).
  { intros now. unfold generateReportMarkdown. rewrite parts_header.
    cbn [map concat render]. unfold header_prefix, report_suffix.
    rewrite <- !app_assoc. reflexivity. }
  split; [exact E|].
  intros now1 now2. split; [|now intros ->].
  rewrite !E. intros H. apply app_inv_head in H. now apply app_inv_tail in H.
Qed.

Lemma report_determined_by_input_and_clock_witness :
  let data := mkReportData (lit "octo/demo") (lit "main") (lit "push")
                           0 0 0 [] [] in
  generateReportMarkdown data (lit "2024-01-01T12:00:00.000Z")
  = header_prefix data ++ lit "2024-01-01T12:00:00.000Z" ++ report_suffix data.
Proof.
  cbv zeta.
  exact (proj1 (report_determined_by_input_and_clock
                  (mkReportData (lit "octo/demo") (lit "main") (lit "push")
                                0 0 0 [] []))
               (lit "2024-01-01T12:00:00.000Z")).
Defined.

(** Every outcome the handler passes to the composer lacks [staticResult]:
    no block of a report built by the handler lists any finding. *)
Lemma handler_blocks_list_no_finding start repository branch eventType
  files completion now st ps md :
  completion ≡ₚ seq 0 (length files) ->
  review start repository branch eventType files completion now
  = Some (st, ps, md) ->
  Forall (fun b => b_findings b = [] /\ b_omitted b = None) (detail_blocks ps).
Proof.
  intros Hperm. unfold review, review_all.
  rewrite HandlerFacts.promise_all_in_input_order by now rewrite length_map.
  intros E. injection E as <- <- _. rewrite detail_blocks_parts.
  destruct (0 <? _); [|constructor].
  apply Forall_forall. intros b Hb. apply list_elem_of_In in Hb.
  apply in_map_iff in Hb as ([r m] & <- & Hin).
  apply list_elem_of_In, subseteq_take, list_elem_of_omap in Hin
    as (r' & Hr' & Hw).
  unfold with_issues in Hw. destruct (metrics r') as [m'|]; [|discriminate].
  destruct (0 <? staticIssues m'); [|discriminate]. injection Hw as -> ->.
  simpl in Hr'. apply list_elem_of_filter, proj2, list_elem_of_In in Hr'.
  apply in_map_iff in Hr' as (file & <- & _).
  simpl. unfold issues_of. rewrite HandlerFacts.reviewFile_no_staticResult.
  split; reflexivity.
Qed.

(** C1 (the code departs from it).  One scanned file whose only line is a
    hardcoded secret: the analyzer finds the error at line 1 and the review
    succeeds with totalIssues = 1, yet the block of the file in the detailed
    list has its counts and no finding line, and the Markdown contains
    neither the line of the finding nor any severity emoji. *)
Theorem report_lists_no_finding_of_reviewed_file :
  let file := mkFile (lit "src/auth.ts") (lit "password = 'secret123'") 22 in
  let agent : Agent := Some (fun _ => Response (Some (lit "Rotate it."))) in
  let found := mkIssue 1 StaticAnalyzer.error (lit "Hardcoded secret detected")
                       (lit "no-hardcoded-secrets") in
  issues (execute (content file) (path file)) = [found]
  /\ exists st md,
       review (start AsFailed agent) (lit "octo/demo") (lit "main")
              (lit "push") [file] [0] (lit "2024-01-01T12:00:00.000Z")
       = Some (st,
               [Header (lit "octo/demo") (lit "main") (lit "push")
                       (lit "2024-01-01T12:00:00.000Z");
                SummaryTable 1 1 1 1;
                Priority [mkCritical (lit "src/auth.ts") 1];
                Details [mkBlock (lit "src/auth.ts") 1 1 [] None] None;
                Footer],
               md)
       /\ totalIssues st = 1
       /\ first_findings
            (mkOutcome true (path file) None None
               (Some (execute (content file) (path file))) None) = [found]
       /\ includes md (finding_line found) = false
       /\ includes md (emoji StaticAnalyzer.error) = false
       /\ includes md (lit "### src/auth.ts") = true.
Proof.
  cbv zeta. split; [vm_compute; reflexivity|].
  eexists _, _. split; [vm_compute; reflexivity|].
  repeat split; vm_compute; reflexivity.
Qed.

(** C5 (the code departs from it).  One scanned file with seven debug
    statements: the analyzer reports seven findings and the review succeeds
    with totalIssues = 7, and the Markdown has the block of the file with its
    counts, yet it states no omission note for the two findings beyond the
    first five (and shows no finding line at all).  The composer does write
    that note when the outcome carries the static result, which the outcomes
    built by the handler never do. *)
Theorem report_states_no_omitted_findings :
  let code := Workflow.join nl (replicate 7 (lit "console.log(1)")) in
  let file := mkFile (lit "src/log.js") code 104 in
  let agent : Agent := Some (fun _ => Response (Some (lit "Remove them."))) in
  let now := lit "2024-01-01T12:00:00.000Z" in
  let sr := execute code (lit "src/log.js") in
  length (issues sr) = 7
  /\ findings_note (Some 2) = nl ++ lit "_... 还有 2 个问题_" ++ nl
  /\ exists st ps md r,
       review (start AsFailed agent) (lit "octo/demo") (lit "main")
              (lit "push") [file] [0] now
       = Some (st, ps, md)
       /\ totalIssues st = 7
       /\ successResults st = [r]
       /\ includes md (lit "### src/log.js") = true
       /\ includes md (lit "**问题数**: 7 | **错误数**: 0") = true
       /\ includes md (findings_note (Some 2)) = false
       /\ includes md (lit "个问题_") = false
       /\ includes md (emoji warning) = false
       /\ includes
            (generateReportMarkdown
               (mkReportData (lit "octo/demo") (lit "main") (lit "push") 1 7 0
                  []
                  [mkOutcome (success r) (fileName r) (report r) (metrics r)
                             (Some sr) (Handler.error r)])
               now)
            (findings_note (Some 2)) = true.
Proof.
  cbv zeta. split; [vm_compute; reflexivity|].
  split; [reflexivity|].
  eexists _, _, _, _. split; [vm_compute; reflexivity|].
  repeat split; vm_compute; reflexivity.
Qed.

End ReportFacts.

(** ** String operations *)

Module StrFacts.

Lemma eqb_eq a : forall b, Str.eqb a b = true <-> a = b.
Proof.
  induction a as [|x a IH]; intros [|y b]; simpl; split; try congruence.
  - intros H. apply andb_true_iff in H as [H1 H2].
    apply N.eqb_eq in H1. apply IH in H2. congruence.
  - intros E. injection E as -> ->. rewrite N.eqb_refl. now apply IH.
Qed.

Lemma eqb_refl a : Str.eqb a a = true.
Proof. now apply eqb_eq. Qed.

Lemma starts_with_spec p : forall s,
  Spec.starts_with p s = true <-> exists suf, s = p ++ suf.
Proof.
  induction p as [|a p IH]; intros s; simpl.
  - split; [intros _; now exists s | reflexivity].
  - destruct s as [|b s].
    + split; [discriminate | intros (suf & E); discriminate].
    + rewrite andb_true_iff, N.eqb_eq, IH. split.
      * intros (-> & suf & ->). now exists suf.
      * intros (suf & E). injection E as -> ->. split; [reflexivity|now exists suf].
Qed.

Lemma includes_spec hay : forall needle,
  Spec.includes hay needle = true <->
  exists pre suf, hay = pre ++ needle ++ suf.
Proof.
  induction hay as [|c hay IH]; intros needle; simpl.
  - rewrite orb_false_r, starts_with_spec. split.
    + intros (suf & E). now exists [], suf.
    + intros (pre & suf & E). symmetry in E.
      apply app_eq_nil in E as [-> E]. now exists suf.
  - rewrite orb_true_iff, starts_with_spec, IH. split.
    + intros [(suf & E) | (pre & suf & ->)].
      * now exists [], suf.
      * now exists (c :: pre), suf.
    + intros (pre & suf & E). destruct pre as [|c1 pre].
      * left. now exists suf.
      * injection E as <- ->. right. now exists pre, suf.
Qed.

Lemma endsWith_spec s p :
  Str.endsWith s p = true <-> exists pre, s = pre ++ p.
Proof.
  unfold Str.endsWith. rewrite starts_with_spec. split.
  - intros (suf & E). exists (rev suf).
    rewrite <- (rev_involutive s), E, rev_app_distr, rev_involutive.
    reflexivity.
  - intros (pre & ->). exists (rev pre). apply rev_app_distr.
Qed.

Lemma split_nonempty sep s : Str.split sep s <> [].
Proof.
  destruct s as [|c s]; simpl; [discriminate|].
  destruct (N.eqb c sep); [discriminate|].
  destruct (Str.split sep s); discriminate.
Qed.

Lemma split_lines_split s : split_lines s = Str.split 10 s.
Proof.
  induction s as [|c s IH]; simpl; [reflexivity|]. now rewrite IH.
Qed.

(** Splitting a string that does not contain the separator. *)
Lemma split_without sep s :
  ~ In sep s -> Str.split sep s = [s].
Proof.
  induction s as [|c s IH]; simpl; intros H; [reflexivity|].
  destruct (N.eqb_spec c sep) as [->|Hne]; [exfalso; auto|].
  rewrite IH by tauto. reflexivity.
Qed.

(** Splitting at the first separator. *)
Lemma split_app sep a b :
  ~ In sep a -> Str.split sep (a ++ sep :: b) = a :: Str.split sep b.
Proof.
  induction a as [|c a IH]; simpl; intros H.
  - now rewrite N.eqb_refl.
  - destruct (N.eqb_spec c sep) as [->|Hne]; [exfalso; auto|].
    rewrite IH by tauto. reflexivity.
Qed.

(** Splitting at any separator: the last piece of the left part and the first
    piece of the right part are the neighbours of the separator. *)
Lemma split_app_any sep a : forall b,
  Str.split sep (a ++ sep :: b) = Str.split sep a ++ Str.split sep b.
Proof.
  induction a as [|c a IH]; intros b; simpl.
  - now rewrite N.eqb_refl.
  - destruct (N.eqb c sep); rewrite IH; [reflexivity|].
    pose proof (split_nonempty sep a).
    destruct (Str.split sep a); [contradiction|reflexivity].
Qed.

End StrFacts.

(** ** More on the static analyzer *)

Module AnalyzerMore.
Import Regex StaticAnalyzer Spec Aux.

Lemma join_split_lines s : Workflow.join nl (split_lines s) = s.
Proof.
  induction s as [|c s IH]; simpl; [reflexivity|].
  pose proof (StrFacts.split_nonempty 10 s) as Hne.
  rewrite <- StrFacts.split_lines_split in Hne.
  destruct (c =? 10)%N eqn:E.
  - apply N.eqb_eq in E. subst c.
    destruct (split_lines s) as [|l ls] eqn:El; [contradiction|].
    change (Workflow.join nl ([] :: l :: ls))
      with ([] ++ nl ++ Workflow.join nl (l :: ls)).
    now rewrite IH.
  - destruct (split_lines s) as [|l ls] eqn:El; [contradiction|].
    rewrite <- IH. destruct ls; reflexivity.
Qed.

Lemma split_lines_no_lf s : Forall (fun ln => ~ In 10%N ln) (split_lines s).
Proof.
  induction s as [|c s IH]; simpl; [repeat constructor; auto|].
  destruct (N.eqb_spec c 10) as [->|Hne].
  - constructor; auto.
  - destruct (split_lines s) as [|l ls]; [repeat constructor; simpl; tauto|].
    inversion IH; subst. constructor; [simpl; tauto|assumption].
Qed.

Lemma split_lines_count (s : list N) :
  length (split_lines s) = S (length (filter (fun c => c = 10%N) s)).
Proof.
  induction s as [|c s IH]; [reflexivity|].
  rewrite filter_cons. cbn [split_lines].
  destruct (N.eqb_spec c 10) as [->|Hne].
  - rewrite decide_True by reflexivity. simpl. now rewrite IH.
  - rewrite decide_False by assumption. rewrite <- IH.
    pose proof (StrFacts.split_nonempty 10 s) as Hn.
    rewrite <- StrFacts.split_lines_split in Hn.
    destruct (split_lines s); [contradiction|reflexivity].
Qed.

(** X1.  The lines the analyzer scans are the code cut at its line feeds:
    joined again with line feeds they give the code back, no line contains a
    line feed, and there is one line more than there are line feeds (a
    trailing line feed gives an empty last line). *)
Theorem split_lines_round_trip (code : jsstring) :
  Workflow.join nl (split_lines code) = code
  /\ Forall (fun ln => ~ In 10%N ln) (split_lines code)
  /\ length (split_lines code)
     = S (length (filter (fun c => c = 10%N) (code : list N))).
Proof.
  split; [apply join_split_lines|].
  split; [apply split_lines_no_lf | apply split_lines_count].
Qed.

Lemma sorted_app (l1 l2 : list nat) :
  StronglySorted le l1 -> StronglySorted le l2 ->
  (forall x y, In x l1 -> In y l2 -> x <= y) ->
  StronglySorted le (l1 ++ l2).
Proof.
  induction 1 as [|a l1 Hs IH Ha]; intros H2 Hle; simpl; [assumption|].
  constructor.
  - apply IH; [assumption|]. intros x y Hx Hy. apply Hle; [now right|assumption].
  - apply Forall_app. split; [assumption|].
    apply Forall_forall. intros y Hy. apply list_elem_of_In in Hy.
    apply Hle; [now left|assumption].
Qed.

Lemma sorted_constant (n : nat) (l : list nat) :
  Forall (fun x => x = n) l -> StronglySorted le l.
Proof.
  induction 1 as [|a l -> Hl IH]; constructor; [assumption|].
  eapply Forall_impl; [exact Hl|]. simpl. intros x ->. lia.
Qed.

Lemma findings_from_sorted lines : forall idx,
  StronglySorted le (map line (findings_from idx lines)).
Proof.
  induction lines as [|ln rest IH]; intros idx; simpl; [constructor|].
  rewrite map_app. apply sorted_app.
  - apply (sorted_constant (idx + 1)). apply Forall_fmap.
    apply AnalyzerFacts.line_findings_line.
  - apply IH.
  - intros x y Hx Hy.
    apply in_map_iff in Hx as (i & <- & Hi).
    apply in_map_iff in Hy as (j & <- & Hj).
    pose proof (AnalyzerFacts.line_findings_line ln idx) as H1.
    pose proof (AnalyzerFacts.findings_from_lines rest (S idx)) as H2.
    rewrite Forall_forall in H1, H2.
    apply list_elem_of_In in Hi, Hj.
    specialize (H1 i Hi). specialize (H2 j Hj). simpl in *. lia.
Qed.

(** X2.  The issue list of the analyzer is ordered by line number. *)
Theorem execute_issues_sorted (code fileName : jsstring) :
  StronglySorted le (map line (issues (execute code fileName))).
Proof.
  rewrite AnalyzerFacts.execute_issues. apply findings_from_sorted.
Qed.

Lemma line_findings_shift ln idx k :
  line_findings ln (idx + k) = map (shift k) (line_findings ln idx).
Proof.
  assert (E : forall a b : nat, a + b + 1 = a + 1 + b) by (intros; lia).
  unfold line_findings, console_issue, secret_issue, todo_issue, shift.
  destruct (test re_console ln), (test re_secret ln), (test re_todo ln);
    simpl; rewrite ?E; reflexivity.
Qed.

Lemma findings_from_shift lines : forall idx k,
  findings_from (idx + k) lines = map (shift k) (findings_from idx lines).
Proof.
  induction lines as [|ln rest IH]; intros idx k; simpl; [reflexivity|].
  rewrite map_app, line_findings_shift.
  change (S (idx + k)) with (S idx + k). now rewrite IH.
Qed.

Lemma findings_from_app l1 : forall idx l2,
  findings_from idx (l1 ++ l2)
  = findings_from idx l1 ++ findings_from (idx + length l1) l2.
Proof.
  induction l1 as [|ln rest IH]; intros idx l2; simpl.
  - now rewrite Nat.add_0_r.
  - rewrite IH, <- app_assoc.
    replace (idx + S (length rest)) with (S idx + length rest) by lia.
    reflexivity.
Qed.

(** X3.  Analyzing two texts put together with a line feed between them
    gives the findings of the first followed by the findings of the second
    moved down by the number of lines of the first; the totals add up. *)
Theorem execute_concatenation (a b fileName : jsstring) :
  let ra := execute a fileName in
  let rb := execute b fileName in
  let r := execute (a ++ nl ++ b) fileName in
  issues r = issues ra ++ map (shift (length (split_lines a))) (issues rb)
  /\ total (summary r) = total (summary ra) + total (summary rb)
  /\ errors (summary r) = errors (summary ra) + errors (summary rb)
  /\ warnings (summary r) = warnings (summary ra) + warnings (summary rb).
Proof.
  cbv zeta.
  assert (E : issues (execute (a ++ nl ++ b) fileName)
              = issues (execute a fileName)
                ++ map (shift (length (split_lines a)))
                       (issues (execute b fileName))).
  { rewrite !AnalyzerFacts.execute_issues.
    change (a ++ nl ++ b) with (a ++ 10%N :: b).
    rewrite !StrFacts.split_lines_split, StrFacts.split_app_any.
    rewrite findings_from_app. f_equal.
    apply (findings_from_shift _ 0). }
  split; [exact E|].
  assert (T : forall s l1 l2,
            tally s (l1 ++ map (shift (length (split_lines a))) l2)
            = tally s l1 + tally s l2).
  { intros s l1 l2. induction l1 as [|i l1 IH]; simpl.
    - induction l2 as [|j l2 IH2]; simpl; [reflexivity|].
      rewrite IH2. destruct (severity j), s; reflexivity.
    - rewrite IH. destruct (severity i), s; reflexivity. }
  pose proof (AnalyzerFacts.count_severity_tally) as C.
  unfold execute in *; simpl in *. rewrite !C. rewrite E.
  rewrite length_app, length_map, !T. auto.
Qed.

Lemma matches_map f r s :
  invariant_under f r -> matches r s -> matches r (map f s).
Proof.
  intros Hinv Hm. induction Hm; simpl in *; rewrite ?map_app.
  - constructor.
  - constructor. now rewrite Hinv.
  - destruct Hinv. constructor; auto.
  - destruct Hinv. apply m_alt_l; auto.
  - destruct Hinv. apply m_alt_r; auto.
  - constructor.
  - constructor; auto.
Qed.

Lemma matches_unmap f r s' :
  invariant_under f r -> matches r s' ->
  forall s, s' = map f s -> matches r s.
Proof.
  intros Hinv Hm.
  induction Hm as [|p c Hp|r1 r2 s1 s2 H1 IH1 H2 IH2|r1 r2 s0 H IH
                  |r1 r2 s0 H IH|r|r s1 s2 H1 IH1 H2 IH2];
    intros s E; simpl in Hinv.
  - symmetry in E. apply map_eq_nil in E as ->. constructor.
  - destruct s as [|c0 [|c1 s]]; try discriminate.
    injection E as ->. constructor. now rewrite <- Hinv.
  - symmetry in E. apply map_eq_app in E as (t1 & t2 & -> & E1 & E2).
    destruct Hinv. constructor; [apply IH1 | apply IH2]; auto.
  - destruct Hinv. apply m_alt_l; auto.
  - destruct Hinv. apply m_alt_r; auto.
  - symmetry in E. apply map_eq_nil in E as ->. constructor.
  - symmetry in E. apply map_eq_app in E as (t1 & t2 & -> & E1 & E2).
    constructor; [apply IH1 | apply IH2]; auto.
Qed.

Lemma test_map f r s :
  invariant_under f r -> test r (map f s) = test r s.
Proof.
  intros Hinv. apply eq_true_iff_eq. rewrite !RegexFacts.test_spec. split.
  - intros (pre & m & suf & E & Hm).
    apply map_eq_app in E as (pre' & rest & -> & _ & E).
    apply map_eq_app in E as (m' & suf' & -> & E & _).
    exists pre', m', suf'. split; [reflexivity|].
    eapply matches_unmap; eauto.
  - intros (pre & m & suf & -> & Hm).
    exists (map f pre), (map f m), (map f suf).
    split; [now rewrite !map_app | now apply matches_map].
Qed.

Lemma canonicalize_idem c : canonicalize (canonicalize c) = canonicalize c.
Proof.
  unfold canonicalize.
  destruct ((97 <=? c)%N && (c <=? 122)%N) eqn:E; [|now rewrite E].
  apply andb_true_iff in E as [E1 E2].
  apply N.leb_le in E1, E2.
  destruct (N.leb_spec 97 (c - 32)); [lia|reflexivity].
Qed.

Ltac case_split_N :=
  repeat match goal with
  | |- context [N.eqb ?a ?b] => destruct (N.eqb_spec a b); try lia
  | |- context [N.leb ?a ?b] => destruct (N.leb_spec a b); try lia
  end; try reflexivity.

Ltac class_invariant c :=
  cbn beta; unfold canonicalize, is_space, is_quote;
  destruct ((97 <=? c)%N && (c <=? 122)%N) eqn:E;
  [ apply andb_true_iff in E as [E1 E2]; apply N.leb_le in E1, E2;
    case_split_N
  | reflexivity ].

Lemma seq_of_chr_i_invariant s :
  invariant_under canonicalize (seq_of chr_i s).
Proof.
  induction s as [|c [|c' s] IH].
  - exact I.
  - simpl. intros x. now rewrite canonicalize_idem.
  - split; [|exact IH]. simpl. intros x. now rewrite canonicalize_idem.
Qed.

Lemma str_i_invariant s : invariant_under canonicalize (str_i s).
Proof. apply seq_of_chr_i_invariant. Qed.

Ltac invariant_split :=
  repeat match goal with
  | |- invariant_under _ (Seq _ _) => split
  | |- invariant_under _ (Alt _ _) => split
  | |- invariant_under ?f (Star ?r) => change (invariant_under f r)
  | |- invariant_under _ (Opt _) => unfold Opt
  | |- invariant_under _ (Plus _) => unfold Plus
  | |- invariant_under _ (str_i _) => apply str_i_invariant
  | |- invariant_under _ Eps => exact I
  | |- invariant_under _ ws => unfold ws
  | |- invariant_under _ (chr _) => unfold chr
  | |- invariant_under ?f (Cls ?p) =>
    change (forall c, p (f c) = p c);
    let c := fresh "c" in intros c; class_invariant c
  end.

Lemma re_secret_invariant : invariant_under canonicalize re_secret.
Proof. unfold re_secret. invariant_split. Qed.

Lemma re_todo_invariant : invariant_under canonicalize re_todo.
Proof.
  unfold re_todo.
  change (str "//") with (Seq (chr 47) (chr 47)).
  invariant_split.
Qed.

(** X4.  The hardcoded-secret rule and the TODO rule do not look at the case
    of ASCII letters: two lines that agree once their ASCII letters are put
    in upper case trigger the same of these two rules. *)
Theorem secret_and_todo_rules_ignore_case (ln1 ln2 : jsstring) :
  upper ln1 = upper ln2 ->
  test re_secret ln1 = test re_secret ln2
  /\ test re_todo ln1 = test re_todo ln2.
Proof.
  intros E. unfold upper in E. split.
  - rewrite <- (test_map canonicalize re_secret ln1 re_secret_invariant).
    rewrite <- (test_map canonicalize re_secret ln2 re_secret_invariant).
    now rewrite E.
  - rewrite <- (test_map canonicalize re_todo ln1 re_todo_invariant).
    rewrite <- (test_map canonicalize re_todo ln2 re_todo_invariant).
    now rewrite E.
Qed.

Lemma secret_and_todo_rules_ignore_case_witness :
  upper (lit "Api_Key = 'k' // todo") = upper (lit "API_KEY = 'K' // TODO")
  /\ test re_secret (lit "Api_Key = 'k' // todo")
     = test re_secret (lit "API_KEY = 'K' // TODO")
  /\ test re_todo (lit "Api_Key = 'k' // todo")
     = test re_todo (lit "API_KEY = 'K' // TODO").
Proof.
  split; [reflexivity|].
  apply secret_and_todo_rules_ignore_case. reflexivity.
Defined.

Lemma matches_cls_inv p s :
  matches (Cls p) s -> exists c, s = [c] /\ p c = true.
Proof. inversion 1; subst; eauto. Qed.

Lemma matches_seq_of_chr s : forall m, matches (seq_of chr s) m -> m = s.
Proof.
  induction s as [|c [|c' s] IH]; intros m H.
  - now apply RegexFacts.matches_eps_inv in H.
  - apply matches_cls_inv in H as (x & -> & E).
    apply N.eqb_eq in E. now subst.
  - apply RegexFacts.matches_seq_inv in H as (s1 & s2 & -> & H1 & H2).
    apply matches_cls_inv in H1 as (x & -> & E). apply N.eqb_eq in E. subst x.
    now rewrite (IH s2 H2).
Qed.

Lemma test_needs_prefix (word : string) r ln :
  test (Seq (str word) r) ln = true -> Str.includes ln (lit word) = true.
Proof.
  intros H. apply RegexFacts.test_spec in H as (pre & m & suf & -> & H).
  apply RegexFacts.matches_seq_inv in H as (s1 & s2 & -> & H1 & _).
  apply matches_seq_of_chr in H1 as ->.
  apply StrFacts.includes_spec. exists pre, (s2 ++ suf).
  now rewrite <- app_assoc.
Qed.

Lemma test_secret_needs ln :
  test re_secret ln = true ->
  In 61%N ln /\ (In 39%N ln \/ In 34%N ln).
Proof.
  intros H. apply RegexFacts.test_spec in H as (pre & m & suf & -> & H).
  unfold re_secret in H.
  apply RegexFacts.matches_seq_inv in H as (a & m1 & -> & _ & H).
  apply RegexFacts.matches_seq_inv in H as (b & m2 & -> & _ & H).
  apply RegexFacts.matches_seq_inv in H as (c & m3 & -> & Hc & H).
  apply RegexFacts.matches_seq_inv in H as (d & m4 & -> & _ & H).
  apply RegexFacts.matches_seq_inv in H as (e & m5 & -> & He & _).
  apply matches_cls_inv in Hc as (x & -> & Ex). apply N.eqb_eq in Ex. subst x.
  apply matches_cls_inv in He as (q & -> & Eq).
  split.
  - rewrite !in_app_iff. simpl. tauto.
  - unfold is_quote in Eq. apply orb_true_iff in Eq as [Eq|Eq];
      apply N.eqb_eq in Eq; subst q; [left|right];
      rewrite !in_app_iff; simpl; tauto.
Qed.

Lemma first_line_prefix code : forall l ls,
  split_lines code = l :: ls -> exists suf, code = l ++ suf.
Proof.
  induction code as [|c code IH]; simpl; intros l ls H.
  - injection H as <- _. now exists [].
  - destruct (c =? 10)%N.
    + injection H as <- _. now exists (c :: code).
    + destruct (split_lines code) as [|l' ls'].
      * injection H as <- _. now exists code.
      * injection H as <- _. destruct (IH l' ls' eq_refl) as (suf & ->).
        now exists suf.
Qed.

Lemma line_in_code code : forall ln,
  In ln (split_lines code) -> exists pre suf, code = pre ++ ln ++ suf.
Proof.
  induction code as [|c code IH]; simpl; intros ln H.
  - destruct H as [<-|[]]. now exists [], [].
  - destruct (c =? 10)%N.
    + destruct H as [<-|H].
      * now exists [], (c :: code).
      * apply IH in H as (pre & suf & ->). now exists (c :: pre), suf.
    + destruct (split_lines code) as [|l ls] eqn:El.
      * destruct H as [<-|[]]. now exists [], code.
      * destruct H as [<-|H].
        -- destruct (first_line_prefix code l ls El) as (suf & ->).
           now exists [], suf.
        -- destruct (IH ln (or_intror H)) as (pre & suf & ->).
           now exists (c :: pre), suf.
Qed.

Lemma includes_part code pre ln suf needle :
  code = pre ++ ln ++ suf ->
  Str.includes ln needle = true -> Str.includes code needle = true.
Proof.
  intros -> H. apply StrFacts.includes_spec in H as (p & q & ->).
  apply StrFacts.includes_spec. exists (pre ++ p), (q ++ suf).
  now rewrite <- !app_assoc.
Qed.

Lemma findings_from_origin lines : forall idx i,
  In i (findings_from idx lines) ->
  exists ln k, In ln lines /\ In i (line_findings ln k).
Proof.
  induction lines as [|l rest IH]; simpl; intros idx i H; [contradiction|].
  apply in_app_or in H as [H|H].
  - exists l, idx. auto.
  - apply IH in H as (ln & k & Hin & Hi). exists ln, k. auto.
Qed.

Lemma line_findings_origin ln k i :
  In i (line_findings ln k) ->
  (test re_console ln = true /\ i = console_issue k)
  \/ (test re_secret ln = true /\ i = secret_issue k)
  \/ (test re_todo ln = true /\ i = todo_issue k).
Proof.
  unfold line_findings.
  destruct (test re_console ln), (test re_secret ln), (test re_todo ln);
    simpl; intuition auto.
Qed.

(** X5.  A rule never fires without the characters it looks for: code that
    nowhere contains [console.] gets no no-console finding, code without
    [//] gets no todo-comment finding, and code without an equals sign or
    without any quote character gets no no-hardcoded-secrets finding. *)
Theorem rules_need_their_markers (code fileName : jsstring) :
  let found := issues (execute code fileName) in
  (Str.includes code (lit "console.") = false ->
   Forall (fun i => has_rule "no-console" i = false) found)
  /\ (Str.includes code (lit "//") = false ->
   Forall (fun i => has_rule "todo-comment" i = false) found)
  /\ (~ In 61%N code \/ (~ In 39%N code /\ ~ In 34%N code) ->
   Forall (fun i => has_rule "no-hardcoded-secrets" i = false) found).
Proof.
  cbv zeta. rewrite AnalyzerFacts.execute_issues.
  assert (O : forall i, In i (findings_from 0 (split_lines code)) ->
            exists pre ln suf k, code = pre ++ ln ++ suf /\
              ((test re_console ln = true /\ i = console_issue k)
               \/ (test re_secret ln = true /\ i = secret_issue k)
               \/ (test re_todo ln = true /\ i = todo_issue k))).
  { intros i Hi. apply findings_from_origin in Hi as (ln & k & Hln & Hi).
    apply line_in_code in Hln as (pre & suf & E).
    exists pre, ln, suf, k. split; [exact E|].
    now apply line_findings_origin. }
  split; [|split]; intros Hno; apply Forall_forall; intros i Hi;
    apply list_elem_of_In, O in Hi
      as (pre & ln & suf & k & E & [[T ->]|[[T ->]|[T ->]]]);
    try reflexivity; exfalso.
  - apply test_needs_prefix in T.
    rewrite (includes_part _ _ _ _ _ E T) in Hno. discriminate.
  - apply test_needs_prefix in T.
    rewrite (includes_part _ _ _ _ _ E T) in Hno. discriminate.
  - apply test_secret_needs in T as [T1 T2]. subst code.
    rewrite !in_app_iff in Hno. tauto.
Qed.

Lemma rules_need_their_markers_witness :
  let code := lit "/* TODO: tidy */" ++ nl ++ lit "print(token)" in
  let found := issues (execute code (lit "a.py")) in
  Str.includes code (lit "console.") = false
  /\ Str.includes code (lit "//") = false
  /\ ~ In 61%N code
  /\ Forall (fun i => has_rule "no-console" i = false) found
  /\ Forall (fun i => has_rule "todo-comment" i = false) found
  /\ Forall (fun i => has_rule "no-hardcoded-secrets" i = false) found.
Proof.
  cbv zeta.
  match goal with
  | |- Str.includes ?c _ = false /\ _ =>
    destruct (rules_need_their_markers c (lit "a.py")) as (H1 & H2 & H3)
  end.
  assert (N61 : ~ In 61%N (lit "/* TODO: tidy */" ++ nl ++ lit "print(token)")).
  { vm_compute. intuition discriminate. }
  split; [reflexivity|]. split; [reflexivity|]. split; [exact N61|].
  split; [exact (H1 eq_refl)|].
  split; [exact (H2 eq_refl) | exact (H3 (or_introl N61))].
Defined.

End AnalyzerMore.

(** ** More on the workflow, the statistics and the report *)

Module PipelineMore.
Import StaticAnalyzer Workflow Handler Report Spec Aux.

Lemma workflow_output agent inp out :
  codeReviewWorkflow agent inp = inr out ->
  exists g text,
    agent = Some g
    /\ out = mkOutput (in_fileName inp)
               (file_report (in_fileName inp)
                  (execute (in_code inp) (in_fileName inp))
                  (text_or_default text))
               (mkMetrics
                  (total (summary (execute (in_code inp) (in_fileName inp))))
                  (errors (summary (execute (in_code inp) (in_fileName inp))))).
Proof.
  unfold codeReviewWorkflow, staticAnalysisStep, aiReviewStep,
    generateReportStep, bind, ret, throw.
  destruct agent as [g|]; [|discriminate].
  cbn [an_fileName an_code an_staticResult].
  destruct (g _) as [text|msg]; [|discriminate].
  intros E. injection E as <-. now exists g, text.
Qed.

Lemma metrics_bounds code fileName :
  errors (summary (execute code fileName))
  <= total (summary (execute code fileName))
  /\ total (summary (execute code fileName)) <= 3 * length (split_lines code).
Proof.
  unfold execute; simpl. rewrite AnalyzerFacts.count_severity_tally.
  rewrite AnalyzerFacts.forEach_findings. simpl.
  pose proof (AnalyzerFacts.tally_length (findings_from 0 (split_lines code))).
  pose proof (AnalyzerFacts.findings_from_length (split_lines code) 0).
  lia.
Qed.

(** X6.  The metrics of a successful workflow run are the analyzer's counts
    for the code, whatever the agent answered: staticIssues is the number of
    findings, staticErrors the number of error findings, so
    staticErrors <= staticIssues <= 3 times the number of lines; and the
    output keeps the file name of the input. *)
Theorem workflow_metrics_from_analyzer
  (agent : Agent) (inp : Input) (out : Output) :
  codeReviewWorkflow agent inp = inr out ->
  let found := issues (execute (in_code inp) (in_fileName inp)) in
  out_fileName out = in_fileName inp
  /\ staticIssues (out_metrics out) = length found
  /\ staticErrors (out_metrics out) = tally StaticAnalyzer.error found
  /\ staticErrors (out_metrics out) <= staticIssues (out_metrics out)
  /\ staticIssues (out_metrics out) <= 3 * length (split_lines (in_code inp)).
Proof.
  intros H. apply workflow_output in H as (g & text & _ & ->). cbv zeta.
  cbn [out_fileName out_metrics staticIssues staticErrors].
  pose proof (metrics_bounds (in_code inp) (in_fileName inp)) as [B1 B2].
  split; [reflexivity|]. split; [reflexivity|].
  split; [|split; assumption].
  unfold execute; simpl. apply AnalyzerFacts.count_severity_tally.
Qed.

Lemma workflow_metrics_from_analyzer_witness :
  let agent : Agent := Some (fun _ => Response None) in
  let inp := mkInput (lit "const secret = 'x';" ++ nl ++ lit "console.log(1)")
                     (lit "a.js") in
  exists out,
    codeReviewWorkflow agent inp = inr out
    /\ out_fileName out = lit "a.js"
    /\ out_metrics out = mkMetrics 2 1.
Proof.
  cbv zeta. eexists. split; [reflexivity|].
  match goal with
  | |- out_fileName ?o = _ /\ _ =>
    destruct (workflow_metrics_from_analyzer
                (Some (fun _ => Response None))
                (mkInput (lit "const secret = 'x';" ++ nl
                          ++ lit "console.log(1)") (lit "a.js"))
                o eq_refl) as (H1 & _)
  end.
  split; [exact H1 | reflexivity].
Defined.

Lemma text_or_default_nonempty text : text_or_default text <> [].
Proof. destruct text as [[|c t]|]; discriminate. Qed.

(** X7.  The workflow follows the answer of the agent, and the analysis of
    the code never makes it fail: when agent.generate rejects, the run
    throws the agent's message; when it resolves with a response, the run
    succeeds and its report carries a non-empty AI review: the text of the
    response, or No review generated when that text is missing or empty. *)
Theorem workflow_follows_agent_answer
  (generate : Prompt -> Generated) (inp : Input) :
  let sr := execute (in_code inp) (in_fileName inp) in
  let prompt := mkPrompt (in_fileName inp) (in_code inp) (total (summary sr))
                         (issues sr) in
  match generate prompt with
  | Rejected msg => codeReviewWorkflow (Some generate) inp = inl msg
  | Response text =>
    exists out review,
      codeReviewWorkflow (Some generate) inp = inr out
      /\ review <> []
      /\ review = match text with
                  | Some (c :: t) => c :: t
                  | _ => lit "No review generated"
                  end
      /\ Str.includes (out_report out)
           (lit "## 🤖 AI Review" ++ nl ++ review ++ nl) = true
  end.
Proof.
  cbv zeta. unfold codeReviewWorkflow, staticAnalysisStep,
    aiReviewStep, generateReportStep, bind, ret, throw.
  cbn [an_fileName an_code an_staticResult].
  destruct (generate _) as [text|msg]; [|reflexivity].
  eexists _, (text_or_default text). split; [reflexivity|].
  split; [apply text_or_default_nonempty|].
  split; [destruct text as [[|c t]|]; reflexivity|].
  cbn [out_report rv_fileName rv_staticResult rv_aiReview].
  apply StrFacts.includes_spec. unfold file_report.
  exists (lit "# Code Review: " ++ in_fileName inp ++ nl ++ nl
      ++ lit "## 📊 Static Analysis" ++ nl
      ++ lit "- Total Issues: "
      ++ show_nat (total (summary (execute (in_code inp) (in_fileName inp))))
      ++ nl ++ lit "- Errors: "
      ++ show_nat (errors (summary (execute (in_code inp) (in_fileName inp))))
      ++ nl ++ lit "- Warnings: "
      ++ show_nat (warnings (summary (execute (in_code inp) (in_fileName inp))))
      ++ nl ++ nl
      ++ join nl (map issue_line
                    (issues (execute (in_code inp) (in_fileName inp))))
      ++ nl ++ nl),
    (nl ++ lit "---" ++ nl ++ lit "*Generated by Mastra Code Review*").
  rewrite <- !app_assoc. reflexivity.
Qed.

Lemma critical_spec_sum l :
  list_sum (map cf_errors (critical_spec l)) = sum_successful staticErrors l
  /\ Forall (fun c => 0 < cf_errors c) (critical_spec l).
Proof.
  induction l as [|r l [IH1 IH2]]; simpl; [split; [reflexivity|constructor]|].
  destruct (success r); [|auto].
  destruct (metrics r) as [m|]; [|auto].
  destruct (0 <? staticErrors m) eqn:E.
  - apply Nat.ltb_lt in E. simpl. rewrite IH1. split; [reflexivity|].
    constructor; assumption.
  - apply Nat.ltb_ge in E. split; [lia|assumption].
Qed.

Lemma positive_sum_length (l : list nat) :
  Forall (fun n => 0 < n) l -> length l <= list_sum l.
Proof. induction 1; simpl; lia. Qed.

Lemma critical_files_account_for_errors_aux (rs : list Outcome) :
  (criticalFiles (statistics rs) = [] -> totalErrors (statistics rs) = 0)
  /\ length (criticalFiles (statistics rs)) <= totalErrors (statistics rs).
Proof.
  unfold statistics; simpl.
  rewrite HandlerFacts.critical_files_spec.
  rewrite (HandlerFacts.total_sum_successful staticErrors).
  destruct (critical_spec_sum rs) as [S P].
  pose proof (positive_sum_length (map cf_errors (critical_spec rs))) as L.
  rewrite length_map in L.
  assert (P' : Forall (fun n => 0 < n) (map cf_errors (critical_spec rs))).
  { apply Forall_fmap. exact P. }
  specialize (L P'). rewrite S in L.
  split; [|exact L].
  intros E. rewrite E in S. simpl in S. lia.
Qed.

(** X8.  For any sequence of outcomes, the errors of the critical files add
    up to totalErrors, every critical file has at least one error, there are
    at most totalErrors critical files, and there is none exactly when
    totalErrors is 0. *)
Theorem critical_files_account_for_errors (rs : list Outcome) :
  let st := statistics rs in
  list_sum (map cf_errors (criticalFiles st)) = totalErrors st
  /\ Forall (fun c => 0 < cf_errors c) (criticalFiles st)
  /\ length (criticalFiles st) <= totalErrors st
  /\ (criticalFiles st = [] <-> totalErrors st = 0).
Proof.
  unfold statistics; simpl.
  rewrite HandlerFacts.critical_files_spec.
  rewrite (HandlerFacts.total_sum_successful staticErrors).
  destruct (critical_spec_sum rs) as [S P].
  pose proof (positive_sum_length (map cf_errors (critical_spec rs))) as L.
  rewrite length_map in L.
  assert (P' : Forall (fun n => 0 < n) (map cf_errors (critical_spec rs))).
  { apply Forall_fmap. exact P. }
  specialize (L P'). rewrite S in L.
  split; [exact S|]. split; [exact P|]. split; [exact L|].
  split.
  - intros E. rewrite E in S. simpl in S. lia.
  - intros E. destruct (critical_spec rs); [reflexivity|simpl in L; lia].
Qed.

Lemma reviewFile_metrics how agent file :
  match metrics (reviewFile (start how agent) file) with
  | Some m => staticErrors m <= staticIssues m
              /\ staticIssues m <= 3 * line_count file
  | None => True
  end.
Proof.
  unfold reviewFile, start.
  destruct (codeReviewWorkflow agent _) as [msg|out] eqn:E.
  - destruct how; exact I.
  - apply workflow_output in E as (g & text & _ & ->).
    cbn [metrics out_metrics staticErrors staticIssues in_code in_fileName].
    unfold line_count. exact (metrics_bounds (content file) (path file)).
Qed.

(** X9.  For the outcomes of reviewing any files with the workflow,
    totalErrors <= totalIssues, totalIssues is at most three times the
    number of lines of all files, and there are no more critical files than
    files. *)
Theorem handler_totals_bounded
  (how : Surfacing) (agent : Agent) (files : list SourceFile) :
  let st := statistics (map (reviewFile (start how agent)) files) in
  totalErrors st <= totalIssues st
  /\ totalIssues st <= 3 * list_sum (map line_count files)
  /\ length (criticalFiles st) <= length files.
Proof.
  unfold statistics; simpl.
  rewrite HandlerFacts.critical_files_spec.
  rewrite (HandlerFacts.total_sum_successful staticErrors).
  rewrite (HandlerFacts.total_sum_successful staticIssues).
  induction files as [|file files (IH1 & IH2 & IH3)]; simpl; [lia|].
  pose proof (reviewFile_metrics how agent file) as M.
  destruct (success (reviewFile (start how agent) file)); [|lia].
  destruct (metrics (reviewFile (start how agent) file)) as [m|]; [|lia].
  destruct M as [M1 M2].
  destruct (0 <? staticErrors m); simpl; lia.
Qed.

Lemma qualifying_nonempty l :
  0 < sum_successful staticIssues l ->
  omap with_issues (filter (fun r => success r = true) l) <> [].
Proof.
  induction l as [|r l IH]; simpl; [lia|].
  rewrite filter_cons.
  destruct (decide (success r = true)) as [E|E].
  - rewrite E, HandlerFacts.omap_step. unfold with_issues at 1.
    destruct (metrics r) as [m|]; [|exact IH].
    destruct (0 <? staticIssues m) eqn:Em; [discriminate|].
    apply Nat.ltb_ge in Em. intros H. apply IH. lia.
  - apply not_true_is_false in E. rewrite E. exact IH.
Qed.

(** X10.  In a report built from the statistics of any outcomes, a section
    that is shown is never empty: the priority part lists at least one file,
    and the detailed list has between 1 and 10 blocks. *)
Theorem shown_sections_are_not_empty
  (rs : list Outcome) (repository branch eventType now : jsstring)
  (totalFiles : nat) :
  let ps := parts (report_data repository branch eventType totalFiles
                               (statistics rs)) now in
  (forall fs, In (Priority fs) ps -> fs <> [])
  /\ (forall bs more, In (Details bs more) ps ->
        1 <= length bs <= 10).
Proof.
  cbv zeta.
  destruct (critical_files_account_for_errors_aux rs) as [Hc _].
  assert (Hq : 0 < totalIssues (statistics rs) ->
               omap with_issues (filter (fun r => success r = true) rs) <> []).
  { unfold statistics; simpl.
    rewrite (HandlerFacts.total_sum_successful staticIssues).
    apply qualifying_nonempty. }
  unfold parts, report_data.
  cbn [d_totalErrors d_totalIssues d_criticalFiles d_results].
  split.
  - intros fs H. revert H.
    destruct (0 <? totalErrors (statistics rs)) eqn:E;
      destruct (0 <? totalIssues (statistics rs));
      simpl; intros H; repeat destruct H as [H|H]; try discriminate;
      try contradiction.
    all: injection H as <-; apply Nat.ltb_lt in E; intros C; apply Hc in C; lia.
  - intros bs more H. revert H.
    destruct (0 <? totalErrors (statistics rs));
      destruct (0 <? totalIssues (statistics rs)) eqn:E;
      simpl; intros H; repeat destruct H as [H|H]; try discriminate;
      try contradiction.
    all: injection H as <- _; apply Nat.ltb_lt in E; apply Hq in E;
      rewrite length_map, length_take;
      destruct (omap with_issues (filter (fun r => success r = true) rs));
      [contradiction|cbn [length]; lia].
Qed.

Lemma shown_sections_are_not_empty_witness :
  let r := mkOutcome true (lit "a.js") (Some (lit "report"))
                     (Some (mkMetrics 2 1)) None None in
  let ps := parts (report_data (lit "octo/demo") (lit "main") (lit "push") 1
                               (statistics [r]))
                  (lit "2024-01-01T12:00:00.000Z") in
  In (Details [mkBlock (lit "a.js") 2 1 [] None] None) ps
  /\ 1 <= length [mkBlock (lit "a.js") 2 1 [] None] <= 10.
Proof.
  cbv zeta.
  assert (H : In (Details [mkBlock (lit "a.js") 2 1 [] None] None)
                 (parts (report_data (lit "octo/demo") (lit "main")
                           (lit "push") 1
                           (statistics
                              [mkOutcome true (lit "a.js") (Some (lit "report"))
                                 (Some (mkMetrics 2 1)) None None]))
                        (lit "2024-01-01T12:00:00.000Z"))).
  { right. right. right. left. reflexivity. }
  split; [exact H|].
  exact (proj2 (shown_sections_are_not_empty _ _ _ _ _ _) _ _ H).
Defined.

End PipelineMore.

(** ** The repository scanner *)

Module ScannerFacts.
Import Handler Scanner.

Lemma startsWith_includes s p :
  Str.startsWith s p = true -> Str.includes s p = true.
Proof.
  unfold Str.startsWith, Str.includes. intros H.
  apply StrFacts.starts_with_spec in H as (suf & ->).
  apply StrFacts.includes_spec. now exists [], suf.
Qed.

Lemma ignored_spec path :
  existsb (fun ignoredDir =>
             Str.includes path (ignoredDir ++ lit "/")
             || Str.startsWith path (ignoredDir ++ lit "/")) IGNORED_DIRS
  = true
  <-> exists d pre suf, In d IGNORED_DIRS /\ path = pre ++ d ++ lit "/" ++ suf.
Proof.
  rewrite existsb_exists. split.
  - intros (d & Hd & H). apply orb_true_iff in H as [H|H];
      [|apply startsWith_includes in H];
      apply StrFacts.includes_spec in H as (pre & suf & ->);
      exists d, pre, suf; now rewrite <- app_assoc.
  - intros (d & pre & suf & Hd & ->). exists d. split; [exact Hd|].
    apply orb_true_iff. left. apply StrFacts.includes_spec.
    exists pre, suf. now rewrite <- app_assoc.
Qed.

(** X11.  A path is scanned exactly when it ends with one of the code
    extensions and no ignored directory name followed by a slash occurs
    anywhere in it; so a path is also left out when an ignored name is only
    the end of a longer directory name. *)
Theorem shouldScanFile_spec (path : jsstring) :
  (shouldScanFile path = true <->
   (exists stem ext, In ext CODE_EXTENSIONS /\ path = stem ++ ext)
   /\ ~ (exists d pre suf,
           In d IGNORED_DIRS /\ path = pre ++ d ++ lit "/" ++ suf))
  /\ (forall d pre suf, In d IGNORED_DIRS ->
        shouldScanFile (pre ++ d ++ lit "/" ++ suf) = false).
Proof.
  assert (X : forall p,
    existsb (fun ext => Str.endsWith p ext) CODE_EXTENSIONS = true
    <-> exists stem ext, In ext CODE_EXTENSIONS /\ p = stem ++ ext).
  { intros p. rewrite existsb_exists. split.
    - intros (ext & He & H). apply StrFacts.endsWith_spec in H as (stem & ->).
      now exists stem, ext.
    - intros (stem & ext & He & ->). exists ext. split; [exact He|].
      apply StrFacts.endsWith_spec. now exists stem. }
  split.
  - unfold shouldScanFile.
    match goal with
    | |- context [existsb ?f IGNORED_DIRS] =>
      destruct (existsb f IGNORED_DIRS) eqn:E
    end.
    + apply ignored_spec in E. split; [discriminate|]. intros [_ H]. tauto.
    + rewrite X. split; [|tauto]. intros H. split; [exact H|].
      intros H'. apply ignored_spec in H'. congruence.
  - intros d pre suf Hd. unfold shouldScanFile.
    rewrite (proj2 (ignored_spec _)); [reflexivity|].
    now exists d, pre, suf.
Qed.

Lemma shouldScanFile_spec_witness :
  shouldScanFile (lit "src/app.ts") = true
  /\ (exists stem ext,
        In ext CODE_EXTENSIONS /\ lit "src/app.ts" = stem ++ ext)
  /\ shouldScanFile (lit "src/rebuild/util.ts") = false.
Proof.
  split; [reflexivity|]. split.
  - exact (proj1 (proj1 (proj1 (shouldScanFile_spec (lit "src/app.ts")))
                        eq_refl)).
  - apply (proj2 (shouldScanFile_spec (lit "src/app.ts"))
             (lit "build") (lit "src/re") (lit "util.ts")).
    vm_compute. tauto.
Defined.

Section Scan.

Variable contents : jsstring -> ContentResponse.
Variable decode : jsstring -> jsstring.
Variable token : jsstring.

Lemma fetched_files tree :
  let codeFiles :=
    filter (fun item => Str.eqb (item_type item) (lit "blob")
                        && shouldScanFile (item_path item) = true) tree in
  let valid := omap id (map (fetchFile contents decode) codeFiles) in
  Forall (fun f => shouldScanFile (path f) = true) valid
  /\ length valid <= length tree
  /\ map path valid
     = map item_path
         (filter (fun item =>
                    Str.eqb (item_type item) (lit "blob")
                    && shouldScanFile (item_path item) = true
                    /\ is_Some (fetchFile contents decode item)) tree).
Proof.
  cbv zeta. induction tree as [|item tree (IH1 & IH2 & IH3)];
    [repeat split; constructor|].
  rewrite !filter_cons.
  destruct (decide (Str.eqb (item_type item) (lit "blob")
                    && shouldScanFile (item_path item) = true)) as [E|E].
  - cbn [map]. rewrite HandlerFacts.omap_step.
    destruct (fetchFile contents decode item) as [f|] eqn:Ef; cbn [id].
    + rewrite decide_True by (split; [exact E|now exists f]).
      assert (Ep : path f = item_path item).
      { unfold fetchFile in Ef. destruct (getFileContent _ _ _);
          [discriminate|]. now injection Ef as <-. }
      apply andb_true_iff in E as [_ E].
      split; [|split].
      * constructor; [now rewrite Ep|exact IH1].
      * simpl. lia.
      * cbn [map]. now rewrite Ep, IH3.
    + rewrite decide_False by (intros [_ [x Hx]]; discriminate).
      split; [exact IH1|]. split; [simpl; lia|exact IH3].
  - rewrite decide_False by tauto.
    split; [exact IH1|]. split; [simpl; lia|exact IH3].
Qed.

Lemma foldl_size_sum (l : list SourceFile) : forall acc,
  foldl (fun sum f => sum + size f) acc l = acc + list_sum (map size l).
Proof.
  induction l as [|f l IH]; intros acc; simpl; [lia|]. rewrite IH. lia.
Qed.

(** X12.  When the tree request succeeds the scan succeeds, whatever
    happens to the content requests: the files are, in tree order, the blobs
    with a scannable path whose content could be fetched (the others are
    skipped), totalFiles is their number and totalSize the sum of their
    sizes. *)
Theorem scan_skips_unfetched_files (tree : list Item) :
  exists r,
    execute (TreeOk tree) contents decode token = inr r
    /\ totalFiles (summary r) = length (files r)
    /\ totalSize (summary r) = list_sum (map size (files r))
    /\ length (files r) <= length tree
    /\ Forall (fun f => shouldScanFile (path f) = true) (files r)
    /\ map path (files r)
       = map item_path
           (filter (fun item =>
                      Str.eqb (item_type item) (lit "blob")
                      && shouldScanFile (item_path item) = true
                      /\ is_Some (fetchFile contents decode item)) tree).
Proof.
  eexists. split; [reflexivity|]. cbn [files summary totalFiles totalSize].
  destruct (fetched_files tree) as (H1 & H2 & H3).
  split; [reflexivity|]. split; [apply (foldl_size_sum _ 0)|].
  split; [exact H2|]. split; [exact H1|exact H3].
Qed.

Lemma execute_tree_not_ok status statusText :
  execute (TreeNotOk status statusText) contents decode token
  = inl (lit "GitHub scanner error: "
         ++ lit "Failed to fetch repository tree: " ++ show_nat status
         ++ lit " false " ++ statusText ++ lit " " ++ token).
Proof. reflexivity. Qed.

(** X13.  When GitHub refuses the tree request, the scan fails with a
    message that contains the access token. *)
Theorem scan_error_contains_token (status : nat) (statusText : jsstring) :
  exists message,
    execute (TreeNotOk status statusText) contents decode token = inl message
    /\ Str.includes message token = true
    /\ Str.startsWith message (lit "GitHub scanner error: ") = true.
Proof.
  eexists. split; [reflexivity|]. split.
  - apply StrFacts.includes_spec.
    exists (lit "GitHub scanner error: "
            ++ lit "Failed to fetch repository tree: " ++ show_nat status
            ++ lit " false " ++ statusText ++ lit " "), [].
    rewrite app_nil_r, <- !app_assoc. reflexivity.
  - apply StrFacts.starts_with_spec. eexists. reflexivity.
Qed.

End Scan.

End ScannerFacts.

(** ** The webhook endpoint *)

Module EndpointFacts.
Import Workflow Handler Report Endpoint Aux.

Lemma supported_spec ev :
  supported ev = true <-> ev = lit "push" \/ ev = lit "pull_request".
Proof.
  unfold supported. simpl. rewrite orb_false_r, orb_true_iff.
  now rewrite !StrFacts.eqb_eq.
Qed.

Lemma truthy_spec o :
  Str.truthy o = true <-> exists c s, o = Some (c :: s).
Proof.
  destruct o as [[|c s]|]; simpl; split; try discriminate; eauto.
  all: intros (c' & s' & E); discriminate.
Qed.

Lemma replace_prefix pat rep s : Str.replace pat rep (pat ++ s) = rep ++ s.
Proof.
  assert (H : Spec.starts_with pat (pat ++ s) = true).
  { apply StrFacts.starts_with_spec. now exists s. }
  destruct (pat ++ s) as [|c t] eqn:E; simpl; rewrite H; rewrite <- E;
    now rewrite drop_app_length.
Qed.

Lemma replace_absent pat rep s :
  Str.includes s pat = false -> Str.replace pat rep s = s.
Proof.
  unfold Str.includes.
  induction s as [|c s IH]; simpl; intros H;
    apply orb_false_iff in H as [H1 H2]; rewrite H1; [reflexivity|].
  now rewrite IH.
Qed.

(** X14.  For a push, the branch is the ref without its refs/heads/ prefix;
    a ref that does not contain refs/heads/ (a tag, say) is taken as it is;
    and main is used when the ref is missing, empty or just the prefix. *)
Theorem push_branch_from_ref (payload : Payload) :
  (forall b, ref payload = Some (lit "refs/heads/" ++ b) -> b <> [] ->
     branch_of (lit "push") payload = b)
  /\ (forall r, ref payload = Some r -> r <> [] ->
        Str.includes r (lit "refs/heads/") = false ->
        branch_of (lit "push") payload = r)
  /\ (ref payload = None \/ ref payload = Some []
      \/ ref payload = Some (lit "refs/heads/") ->
      branch_of (lit "push") payload = lit "main").
Proof.
  unfold branch_of. rewrite StrFacts.eqb_refl.
  split; [|split].
  - intros b -> Hb. cbn [option_map]. rewrite replace_prefix.
    destruct b; [contradiction|reflexivity].
  - intros r -> Hr Hn. cbn [option_map]. rewrite replace_absent by exact Hn.
    destruct r; [contradiction|reflexivity].
  - intros [->|[->| ->]]; reflexivity.
Qed.

Lemma push_branch_from_ref_witness :
  let payload := mkPayload (Some (lit "octo/demo"))
                           (Some (lit "refs/heads/feature/login")) None None in
  branch_of (lit "push") payload = lit "feature/login".
Proof.
  cbv zeta.
  apply (proj1 (push_branch_from_ref
                  (mkPayload (Some (lit "octo/demo"))
                             (Some (lit "refs/heads/feature/login"))
                             None None))
               (lit "feature/login")); [reflexivity|discriminate].
Defined.

(** X15.  Only push and pull_request events are processed: for any other
    event, or without the event header, the handler answers with status 200
    and success false, and makes no call to GitHub. *)
Theorem unsupported_event_is_ignored (w : World) (req : Request) :
  (forall ev, x_github_event req = Some ev ->
     ev <> lit "push" /\ ev <> lit "pull_request") ->
  exists message,
    webhook w req = (mkResponse 200 (Unsupported message), []).
Proof.
  intros H. unfold webhook.
  destruct (x_github_event req) as [ev|]; [|eexists; reflexivity].
  destruct (H ev eq_refl) as [H1 H2].
  assert (E : supported ev = false).
  { destruct (supported ev) eqn:E; [|reflexivity].
    apply supported_spec in E. tauto. }
  cbn [Str.show]. rewrite E, orb_true_r. eexists. reflexivity.
Qed.

Lemma unsupported_event_is_ignored_witness :
  let w := mkWorld (fun _ _ _ _ => inl []) None (fun _ => None) [] [] in
  let req := mkRequest (Some (lit "issues")) (inl []) None in
  exists message,
    webhook w req = (mkResponse 200 (Unsupported message), []).
Proof.
  cbv zeta. apply unsupported_event_is_ignored.
  intros ev E. injection E as <-. split; discriminate.
Defined.

Lemma truthy_some s : Str.truthy (Some s) = true <-> s <> [].
Proof. destruct s; simpl; split; congruence. Qed.

Lemma webhook_valid w req ev payload owner repo token :
  valid req ev payload owner repo token ->
  webhook w req = process w ev payload owner repo token.
Proof.
  intros (Eev & Es & Ej & (full & Ef & Eo & Er) & Ho & Hr & Et & Ht).
  unfold webhook. rewrite Eev, Ej, Ef, Eo, Er, Et. cbn [Str.show].
  rewrite Es.
  assert (Hev : Str.truthy (Some ev) = true).
  { apply truthy_some. apply supported_spec in Es as [->| ->]; discriminate. }
  rewrite Hev.
  rewrite (proj2 (truthy_some owner) Ho), (proj2 (truthy_some repo) Hr),
    (proj2 (truthy_some token) Ht).
  reflexivity.
Qed.

Lemma webhook_cases w req :
  snd (webhook w req) = []
  \/ exists ev payload owner repo token,
       valid req ev payload owner repo token.
Proof.
  unfold webhook, valid.
  destruct (x_github_event req) as [ev|] eqn:Eev; [|now left].
  cbn [Str.show].
  destruct (Str.truthy (Some ev)) eqn:Hev; [|now left].
  destruct (supported ev) eqn:Es; [|now left].
  cbn [negb orb].
  destruct (json req) as [m|payload] eqn:Ej; [now left|].
  destruct (repository_full_name payload) as [full|] eqn:Ef; [|now left].
  destruct (Str.split 47 full !! 0) as [owner|] eqn:Eo; [|now left].
  destruct (Str.truthy (Some owner)) eqn:Ho; [|now left].
  destruct (Str.split 47 full !! 1) as [repo|] eqn:Er; [|now left].
  destruct (Str.truthy (Some repo)) eqn:Hr; [|now left].
  destruct (GITHUB_TOKEN req) as [token|] eqn:Et; [|now left].
  destruct (Str.truthy (Some token)) eqn:Ht; [|now left].
  right. exists ev, payload, owner, repo, token.
  apply truthy_some in Ho, Hr, Ht.
  repeat split; auto. exists full. auto.
Qed.

Lemma publish_cases w ev owner repo branch prn st md :
  let out := publish w ev owner repo branch prn st md in
  (fst out = [] /\ snd out = None)
  \/ (ev = lit "push" /\ 0 < totalIssues st
      /\ fst out = [CreateIssue owner repo
                      (issue_title branch (totalErrors st)) md]
      /\ snd out = option_map
                     (fun t => lit "Failed to create GitHub issue: " ++ t)
                     (post_error w (CreateIssue owner repo
                        (issue_title branch (totalErrors st)) md)))
  \/ (ev = lit "pull_request"
      /\ exists n, prn = Some (S n)
      /\ fst out = [CreateComment owner repo (S n) md]
      /\ snd out = option_map
                     (fun t => lit "Failed to create PR comment: " ++ t)
                     (post_error w (CreateComment owner repo (S n) md))).
Proof.
  cbv zeta. unfold publish.
  destruct (Str.eqb ev (lit "push")) eqn:E1.
  - apply StrFacts.eqb_eq in E1.
    destruct (0 <? totalIssues st) eqn:E; [|now left].
    apply Nat.ltb_lt in E. right. left. auto.
  - destruct (Str.eqb ev (lit "pull_request")) eqn:E2; [|now left].
    apply StrFacts.eqb_eq in E2.
    destruct prn as [[|n]|]; [now left| |now left].
    right. right. split; [exact E2|]. exists n. auto.
Qed.

(** X16.  The handler calls GitHub only for a request that passed every
    check (supported event, parsed payload, owner and repository name, token),
    and then in this order: first the scan of owner/repo at the branch, then
    at most one post, which is an issue for a push and a comment on the pull
    request for a pull_request event. *)
Theorem webhook_calls_github_in_order (w : World) (req : Request) :
  let trace := snd (webhook w req) in
  trace = []
  \/ exists ev payload owner repo token posts,
       valid req ev payload owner repo token
       /\ trace = Scan owner repo (branch_of ev payload) token :: posts
       /\ (posts = []
           \/ (ev = lit "push"
               /\ exists title body, posts = [CreateIssue owner repo title body])
           \/ (ev = lit "pull_request"
               /\ exists n body,
                    pull_request_number payload = Some (S n)
                    /\ posts = [CreateComment owner repo (S n) body])).
Proof.
  cbv zeta. destruct (webhook_cases w req) as [H|H]; [now left|].
  destruct H as (ev & payload & owner & repo & token & V). right.
  rewrite (webhook_valid w req ev payload owner repo token V).
  exists ev, payload, owner, repo, token.
  unfold process.
  destruct (scan w owner repo _ token) as [m|sr];
    [exists []; simpl; auto|].
  destruct (getWorkflow w) as [start|]; [|exists []; simpl; auto].
  match goal with
  | |- context [publish w ev owner repo ?b ?prn ?st ?md] =>
    pose proof (publish_cases w ev owner repo b prn st md) as P;
    destruct (publish w ev owner repo b prn st md) as [posts failed]
  end.
  exists posts. cbv zeta in P. cbn [fst snd] in P.
  split; [exact V|].
  split; [destruct failed; reflexivity|].
  destruct P as [[-> _]|[(Eev & _ & -> & _)|(Eev & n & Hn & -> & _)]].
  - now left.
  - right. left. split; [exact Eev|]. eauto.
  - right. right. split; [exact Eev|]. exists n. eexists. split; [|reflexivity].
    subst ev. unfold pullRequestNumber_of in Hn.
    simpl in Hn. exact Hn.
Qed.

Lemma or_else_nonempty s d : s <> [] -> Str.or_else (Some s) d = s.
Proof. destruct s; [contradiction|reflexivity]. Qed.

Lemma app_lit_nonempty (c : N) (p s : jsstring) : (c :: p) ++ s <> [].
Proof. discriminate. Qed.

(** X17.  When the handler answers that the review completed, the response
    names the repository as owner/repo, the branch and the event, and its
    counts are those of the statistics behind the report; for a push an
    issue titled with the branch and the number of errors was created
    exactly when totalIssues > 0, and for a pull_request event the report
    was posted as a comment exactly when the payload carries a non-zero
    pull request number, whatever the number of issues. *)
Theorem completed_posting_policy
  (w : World) (req : Request) (ev : jsstring) (payload : Payload)
  (owner repo token repository br ev' : jsstring) (tf ti te cc : nat)
  (ts : jsstring) (trace : list Effect) :
  valid req ev payload owner repo token ->
  webhook w req
  = (mkResponse 200 (Completed repository br ev' tf ti te cc ts), trace) ->
  repository = owner ++ lit "/" ++ repo
  /\ br = branch_of ev payload /\ ev' = ev /\ ts = response_time w
  /\ exists st body,
       body = generateReportMarkdown (report_data repository br ev tf st)
                                     (report_time w)
       /\ ti = totalIssues st /\ te = totalErrors st
       /\ cc = length (criticalFiles st)
       /\ trace
          = Scan owner repo br token
            :: (if Str.eqb ev (lit "push") then
                  if 0 <? ti
                  then [CreateIssue owner repo (issue_title br te) body]
                  else []
                else match pull_request_number payload with
                     | Some (S n) => [CreateComment owner repo (S n) body]
                     | _ => []
                     end).
Proof.
  intros V. rewrite (webhook_valid w req ev payload owner repo token V).
  destruct V as (_ & Es & _). apply supported_spec in Es.
  unfold process.
  destruct (scan w owner repo _ token) as [m|sr]; [discriminate|].
  destruct (getWorkflow w) as [start|]; [|discriminate].
  set (st := statistics (map (reviewFile start) (Scanner.files sr))).
  set (tf' := Scanner.totalFiles (Scanner.summary sr)).
  set (md := generateReportMarkdown _ _).
  destruct (publish w ev owner repo (branch_of ev payload)
              (pullRequestNumber_of ev payload) st md)
    as [posts failed] eqn:P.
  destruct failed as [m|]; [discriminate|].
  intros E. injection E. intros. subst repository br ev' tf ti te cc ts trace.
  repeat (split; [reflexivity|]).
  exists st, md. repeat (split; [reflexivity|]).
  f_equal.
  unfold publish in P. destruct Es as [-> | ->].
  - rewrite StrFacts.eqb_refl in *.
    match goal with
    | |- context [if 0 <? ?x then _ else _] => change x with (totalIssues st)
    end.
    destruct (0 <? totalIssues st); injection P; intros; subst posts;
      reflexivity.
  - change (Str.eqb (lit "pull_request") (lit "push")) with false in *.
    rewrite StrFacts.eqb_refl in P. unfold pullRequestNumber_of in P.
    change (Str.eqb (lit "pull_request") (lit "push")) with false in P.
    rewrite StrFacts.eqb_refl in P.
    destruct (pull_request_number payload) as [[|n]|]; injection P; intros;
      subst posts; reflexivity.
Qed.

Lemma example_request_valid :
  valid (mkRequest (Some (lit "push"))
           (inr (mkPayload (Some (lit "octo/demo"))
                           (Some (lit "refs/heads/main")) None None))
           (Some (lit "ghp_example")))
        (lit "push")
        (mkPayload (Some (lit "octo/demo")) (Some (lit "refs/heads/main"))
                   None None)
        (lit "octo") (lit "demo") (lit "ghp_example").
Proof.
  repeat split; try reflexivity; try discriminate.
  exists (lit "octo/demo"). repeat split; reflexivity.
Defined.

Lemma completed_posting_policy_witness :
  let payload := mkPayload (Some (lit "octo/demo"))
                           (Some (lit "refs/heads/main")) None None in
  let req := mkRequest (Some (lit "push")) (inr payload)
                       (Some (lit "ghp_example")) in
  let file := mkFile (lit "a.js") (lit "console.log(1)") 14 in
  let w := mkWorld (fun _ _ _ _ =>
                      inr (Scanner.mkScanResult [file]
                             (Scanner.mkSummary 1 14)))
                   (Some (start AsFailed
                            (Some (fun _ => Workflow.Response (Some (lit "ok"))))))
                   (fun _ => None)
                   (lit "2024-01-01T12:00:00.000Z")
                   (lit "2024-01-01T12:00:01.000Z") in
  exists body,
    snd (webhook w req)
    = [Scan (lit "octo") (lit "demo") (lit "main") (lit "ghp_example");
       CreateIssue (lit "octo") (lit "demo")
                   (issue_title (lit "main") 0) body].
Proof.
  cbv zeta.
  match goal with
  | |- exists body, snd (webhook ?w ?req) = _ =>
    destruct (webhook w req) as [resp trace] eqn:E;
    assert (E' := E); vm_compute in E'; injection E' as <- _;
    destruct (completed_posting_policy w req _ _ _ _ _ _ _ _ _ _ _ _ _ _
                example_request_valid E)
      as (_ & _ & _ & _ & st & body & _ & _ & _ & _ & T)
  end.
  exists body. exact T.
Defined.

(** X18.  When GitHub refuses the post, the handler answers with status 500
    and an error that ends with the text GitHub returned, although the
    review itself went through. *)
Theorem refused_post_gives_500
  (w : World) (req : Request) (e : Effect) (t : jsstring) :
  In e (snd (webhook w req)) -> is_post e = true ->
  post_error w e = Some t ->
  exists prefix,
    prefix <> []
    /\ fst (webhook w req) = mkResponse 500 (Failure (prefix ++ t)).
Proof.
  destruct (webhook_cases w req) as [H|H]; [rewrite H; contradiction|].
  destruct H as (ev & payload & owner & repo & token & V).
  rewrite (webhook_valid w req ev payload owner repo token V).
  unfold process.
  destruct (scan w owner repo _ token) as [m|sr].
  { simpl. intros [<-|[]] C. discriminate. }
  destruct (getWorkflow w) as [start|].
  2:{ simpl. intros [<-|[]] C. discriminate. }
  match goal with
  | |- context [publish w ev owner repo ?b ?prn ?st ?md] =>
    pose proof (publish_cases w ev owner repo b prn st md) as P;
    destruct (publish w ev owner repo b prn st md) as [posts failed]
  end.
  cbv zeta in P. cbn [fst snd] in P.
  assert (X : In e posts -> post_error w e = Some t ->
              exists prefix, prefix <> [] /\ failed = Some (prefix ++ t)).
  { destruct P as [[-> _]|[(_ & _ & -> & ->)|(_ & n & _ & -> & ->)]].
    - contradiction.
    - intros [<-|[]] ->. eexists. split; [|reflexivity]. discriminate.
    - intros [<-|[]] ->. eexists. split; [|reflexivity]. discriminate. }
  intros Hin Hp Ht.
  assert (Hin' : In e posts).
  { destruct failed; simpl in Hin; destruct Hin as [<-|Hin];
      try discriminate; exact Hin. }
  destruct (X Hin' Ht) as (prefix & Hne & ->).
  exists prefix. split; [exact Hne|]. cbn [fst]. unfold caught.
  rewrite or_else_nonempty; [reflexivity|].
  destruct prefix; [contradiction|discriminate].
Qed.

Lemma refused_post_gives_500_witness :
  let payload := mkPayload (Some (lit "octo/demo")) None (Some (lit "fix"))
                           (Some 7) in
  let req := mkRequest (Some (lit "pull_request")) (inr payload)
                       (Some (lit "ghp_example")) in
  let w := mkWorld (fun _ _ _ _ =>
                      inr (Scanner.mkScanResult [] (Scanner.mkSummary 0 0)))
                   (Some (start AsFailed None))
                   (fun _ => Some (lit "Not Found"))
                   (lit "2024-01-01T12:00:00.000Z")
                   (lit "2024-01-01T12:00:01.000Z") in
  exists prefix,
    prefix <> []
    /\ fst (webhook w req)
       = mkResponse 500 (Failure (prefix ++ lit "Not Found")).
Proof.
  cbv zeta.
  match goal with
  | |- exists prefix, _ /\ fst (webhook ?w ?req) = _ =>
    apply (refused_post_gives_500 w req
             (CreateComment (lit "octo") (lit "demo") 7
                (generateReportMarkdown
                   (report_data (lit "octo/demo") (lit "fix")
                      (lit "pull_request") 0 (statistics []))
                   (lit "2024-01-01T12:00:00.000Z"))))
  end.
  - right. left. reflexivity.
  - reflexivity.
  - reflexivity.
Defined.

(** X19.  When GitHub refuses the tree request of the scanner, the handler
    answers a valid request with status 500 and an error text that contains
    the access token; no post is made. *)
Theorem refused_tree_request_reveals_token
  (req : Request) (ev : jsstring) (payload : Payload)
  (owner repo token : jsstring) (status : nat) (statusText : jsstring)
  (contents : jsstring -> Scanner.ContentResponse)
  (decode : jsstring -> jsstring) (workflow : option (Input -> Started))
  (refusal : Effect -> option jsstring) (t1 t2 : jsstring) :
  valid req ev payload owner repo token ->
  exists message,
    webhook (github_world (Scanner.TreeNotOk status statusText) contents
                          decode workflow refusal t1 t2) req
    = (mkResponse 500 (Failure message),
       [Scan owner repo (branch_of ev payload) token])
    /\ Str.includes message token = true.
Proof.
  intros V. rewrite (webhook_valid _ req ev payload owner repo token V).
  unfold process, github_world. cbn [scan].
  rewrite ScannerFacts.execute_tree_not_ok. unfold caught.
  rewrite or_else_nonempty by discriminate.
  eexists. split; [reflexivity|].
  apply StrFacts.includes_spec.
  exists (lit "GitHub scanner error: "
          ++ lit "Failed to fetch repository tree: " ++ show_nat status
          ++ lit " false " ++ statusText ++ lit " "), [].
  rewrite app_nil_r, <- !app_assoc. reflexivity.
Qed.

Lemma refused_tree_request_reveals_token_witness :
  let payload := mkPayload (Some (lit "octo/demo"))
                           (Some (lit "refs/heads/main")) None None in
  let req := mkRequest (Some (lit "push")) (inr payload)
                       (Some (lit "ghp_example")) in
  exists message,
    webhook (github_world (Scanner.TreeNotOk 404 (lit "Not Found"))
               (fun _ => Scanner.ContentOk None) (fun s => s) None
               (fun _ => None) [] []) req
    = (mkResponse 500 (Failure message),
       [Scan (lit "octo") (lit "demo") (lit "main") (lit "ghp_example")])
    /\ Str.includes message (lit "ghp_example") = true.
Proof.
  cbv zeta.
  exact (refused_tree_request_reveals_token _ _ _ _ _ _ 404 (lit "Not Found")
           (fun _ => Scanner.ContentOk None) (fun s => s) None
           (fun _ => None) [] [] example_request_valid).
Defined.

Lemma statistics_without_agent how files :
  statistics (map (reviewFile (start how None)) files)
  = mkStatistics (map (reviewFile (start how None)) files) [] 0 0 [].
Proof.
  unfold statistics.
  assert (E : filter (fun r => success r = true)
                     (map (reviewFile (start how None)) files) = []).
  { induction files as [|f files IH]; [reflexivity|].
    cbn [map]. rewrite filter_cons, IH.
    rewrite decide_False; [reflexivity|].
    unfold reviewFile, start. simpl. destruct how; discriminate. }
  now rewrite E.
Qed.

(** X20.  When no agent is registered every review fails, and the handler
    hides it: for a push it answers that the review completed with zero
    issues and errors and posts nothing, and the report it composes is the
    one congratulating on no issue found, whatever the files contain. *)
Theorem unregistered_agent_reports_no_issue
  (w : World) (req : Request) (payload : Payload)
  (owner repo token : jsstring) (sr : Scanner.ScanResult) (how : Surfacing) :
  valid req (lit "push") payload owner repo token ->
  scan w owner repo (branch_of (lit "push") payload) token = inr sr ->
  getWorkflow w = Some (start how None) ->
  let br := branch_of (lit "push") payload in
  let tf := Scanner.totalFiles (Scanner.summary sr) in
  webhook w req
  = (mkResponse 200
       (Completed (owner ++ lit "/" ++ repo) br (lit "push") tf 0 0 0
                  (response_time w)),
     [Scan owner repo br token])
  /\ forall now,
       parts (report_data (owner ++ lit "/" ++ repo) br (lit "push") tf
                (statistics (map (reviewFile (start how None))
                                 (Scanner.files sr)))) now
       = [Header (owner ++ lit "/" ++ repo) br (lit "push") now;
          SummaryTable tf 0 0 0; NoIssues; Footer].
Proof.
  intros V Hs Hw. cbv zeta.
  rewrite (webhook_valid w req _ payload owner repo token V).
  unfold process. rewrite Hs, Hw, statistics_without_agent.
  split; reflexivity.
Qed.

Lemma unregistered_agent_reports_no_issue_witness :
  let payload := mkPayload (Some (lit "octo/demo"))
                           (Some (lit "refs/heads/main")) None None in
  let req := mkRequest (Some (lit "push")) (inr payload)
                       (Some (lit "ghp_example")) in
  let file := mkFile (lit "a.js") (lit "const password = 'hunter2';") 27 in
  let w := mkWorld (fun _ _ _ _ =>
                      inr (Scanner.mkScanResult [file]
                             (Scanner.mkSummary 1 27)))
                   (Some (start AsFailed None)) (fun _ => None)
                   (lit "2024-01-01T12:00:00.000Z")
                   (lit "2024-01-01T12:00:01.000Z") in
  webhook w req
  = (mkResponse 200
       (Completed (lit "octo/demo") (lit "main") (lit "push") 1 0 0 0
                  (lit "2024-01-01T12:00:01.000Z")),
     [Scan (lit "octo") (lit "demo") (lit "main") (lit "ghp_example")]).
Proof.
  cbv zeta.
  match goal with
  | |- webhook ?w ?req = _ =>
    exact (proj1 (unregistered_agent_reports_no_issue w req _ _ _ _
                    (Scanner.mkScanResult
                       [mkFile (lit "a.js")
                               (lit "const password = 'hunter2';") 27]
                       (Scanner.mkSummary 1 27))
                    AsFailed example_request_valid eq_refl eq_refl))
  end.
Defined.

(** X25.  For a supported event, a payload without a repository name of the
    form owner/repo is answered with status 400, and a valid payload without
    a token (or with an empty one) with status 500; in both cases GitHub is
    not called. *)
Theorem invalid_requests_are_rejected
  (w : World) (req : Request) (ev : jsstring) (payload : Payload) :
  x_github_event req = Some ev -> supported ev = true ->
  json req = inr payload ->
  ((repository_full_name payload = None
    \/ exists full, repository_full_name payload = Some full
                    /\ ~ In 47%N full) ->
   webhook w req
   = (mkResponse 400
        (Failure (lit "Invalid webhook payload: missing repository information")),
      []))
  /\ (forall owner repo,
        repository_full_name payload = Some (owner ++ lit "/" ++ repo) ->
        owner <> [] -> repo <> [] -> ~ In 47%N owner -> ~ In 47%N repo ->
        GITHUB_TOKEN req = None \/ GITHUB_TOKEN req = Some [] ->
        webhook w req
        = (mkResponse 500
             (Failure (lit "GITHUB_TOKEN environment variable is required")),
           [])).
Proof.
  intros Eev Es Ej.
  assert (Hev : Str.truthy (Some ev) = true).
  { apply truthy_some. apply supported_spec in Es as [->| ->]; discriminate. }
  split.
  - intros H. unfold webhook. rewrite Eev, Ej. cbn [Str.show].
    rewrite Es, Hev. cbn [negb orb].
    destruct H as [->|(full & -> & Hn)]; [reflexivity|].
    rewrite (StrFacts.split_without 47 full Hn). cbn [lookup list_lookup].
    now rewrite orb_true_r.
  - intros owner repo Ef Ho Hr Hno Hnr Ht.
    unfold webhook. rewrite Eev, Ej, Ef. cbn [Str.show].
    rewrite Es, Hev. cbn [negb orb].
    change (owner ++ lit "/" ++ repo) with (owner ++ 47%N :: repo).
    rewrite (StrFacts.split_app 47 owner repo Hno).
    rewrite (StrFacts.split_without 47 repo Hnr). cbn [lookup list_lookup].
    rewrite (proj2 (truthy_some owner) Ho), (proj2 (truthy_some repo) Hr).
    cbn [negb orb].
    destruct Ht as [-> | ->]; reflexivity.
Qed.

Lemma invalid_requests_are_rejected_witness :
  let w := mkWorld (fun _ _ _ _ => inl []) None (fun _ => None) [] [] in
  webhook w (mkRequest (Some (lit "push"))
               (inr (mkPayload None (Some (lit "refs/heads/main")) None None))
               (Some (lit "ghp_example")))
  = (mkResponse 400
       (Failure (lit "Invalid webhook payload: missing repository information")),
     []).
Proof.
  cbv zeta.
  match goal with
  | |- webhook ?w ?req = _ =>
    refine (proj1 (invalid_requests_are_rejected w req (lit "push")
                     (mkPayload None (Some (lit "refs/heads/main")) None None)
                     eq_refl eq_refl eq_refl) _)
  end.
  left. reflexivity.
Defined.

(** X26.  A repository name owner/repo with a single slash is taken apart
    into owner and repo, the scan is made for exactly that pair, and a
    completed response gives the name back unchanged. *)
Theorem repository_name_round_trip
  (w : World) (req : Request) (ev : jsstring) (payload : Payload)
  (owner repo token : jsstring) :
  x_github_event req = Some ev -> supported ev = true ->
  json req = inr payload ->
  repository_full_name payload = Some (owner ++ lit "/" ++ repo) ->
  owner <> [] -> repo <> [] -> ~ In 47%N owner -> ~ In 47%N repo ->
  GITHUB_TOKEN req = Some token -> token <> [] ->
  valid req ev payload owner repo token
  /\ (exists posts,
        snd (webhook w req)
        = Scan owner repo (branch_of ev payload) token :: posts)
  /\ forall repository br ev' tf ti te cc ts,
       body (fst (webhook w req))
       = Completed repository br ev' tf ti te cc ts ->
       Some repository = repository_full_name payload.
Proof.
  intros Eev Es Ej Ef Ho Hr Hno Hnr Et Ht.
  assert (V : valid req ev payload owner repo token).
  { repeat split; auto. exists (owner ++ lit "/" ++ repo).
    split; [exact Ef|].
    change (owner ++ lit "/" ++ repo) with (owner ++ 47%N :: repo).
    rewrite (StrFacts.split_app 47 owner repo Hno).
    rewrite (StrFacts.split_without 47 repo Hnr). split; reflexivity. }
  split; [exact V|].
  rewrite (webhook_valid w req ev payload owner repo token V).
  unfold process.
  destruct (scan w owner repo _ token) as [m|sr].
  { split; [now exists []|]. intros; discriminate. }
  destruct (getWorkflow w) as [start|].
  2:{ split; [now exists []|]. intros; discriminate. }
  destruct (publish _ _ _ _ _ _ _ _) as [posts failed].
  destruct failed as [m|].
  - split; [now exists posts|]. intros; discriminate.
  - split; [now exists posts|].
    cbn [fst body]. intros repository br ev' tf ti te cc ts E.
    rewrite Ef. f_equal. congruence.
Qed.

Lemma repository_name_round_trip_witness :
  let payload := mkPayload (Some (lit "octo/demo"))
                           (Some (lit "refs/heads/main")) None None in
  let req := mkRequest (Some (lit "push")) (inr payload)
                       (Some (lit "ghp_example")) in
  let w := mkWorld (fun _ _ _ _ => inl (lit "offline")) None (fun _ => None)
                   [] [] in
  exists posts,
    snd (webhook w req)
    = Scan (lit "octo") (lit "demo") (lit "main") (lit "ghp_example") :: posts.
Proof.
  cbv zeta.
  match goal with
  | |- exists posts, snd (webhook ?w ?req) = _ =>
    refine (proj1 (proj2 (repository_name_round_trip w req (lit "push")
                            (mkPayload (Some (lit "octo/demo"))
                               (Some (lit "refs/heads/main")) None None)
                            (lit "octo") (lit "demo") (lit "ghp_example")
                            eq_refl eq_refl eq_refl eq_refl _ _ _ _
                            eq_refl _)))
  end; try discriminate; vm_compute; intuition discriminate.
Defined.

End EndpointFacts.

(** ** The AbortSignal polyfill *)

Module PolyfillFacts.
Import Polyfill Aux.

Lemma has_spec ls l : has ls l = true <-> In l ls.
Proof.
  unfold has. rewrite existsb_exists. split.
  - intros (x & Hx & E). apply Nat.eqb_eq in E. now subst.
  - intros H. exists l. split; [exact H|apply Nat.eqb_refl].
Qed.

Lemma add_new l s :
  ~ In l (default [] (listeners s)) ->
  addEventListener (lit "abort") l s
  = mkSignal (Some (default [] (listeners s) ++ [l])) (HWrap (onabort s)).
Proof.
  intros H. unfold addEventListener.
  change (is_abort (lit "abort")) with true. cbn [negb].
  change (match listeners s with Some ls => ls | None => [] end)
    with (default [] (listeners s)).
  destruct (has _ l) eqn:E; [|reflexivity].
  apply has_spec in E. contradiction.
Qed.

Lemma add_all_cons l rest s :
  add_all (l :: rest) s = add_all rest (addEventListener (lit "abort") l s).
Proof. reflexivity. Qed.

Lemma add_all_state ls : forall s,
  NoDup (default [] (listeners s) ++ ls) -> ls <> [] ->
  add_all ls s
  = mkSignal (Some (default [] (listeners s) ++ ls))
             (Nat.iter (length ls) HWrap (onabort s)).
Proof.
  induction ls as [|l rest IH]; intros s Hnd Hne; [contradiction|].
  rewrite add_all_cons.
  assert (Hl : ~ In l (default [] (listeners s))).
  { apply NoDup_app in Hnd as (_ & Hd & _). intros Hin.
    apply (Hd l); [now apply list_elem_of_In|left]. }
  rewrite (add_new l s Hl).
  destruct rest as [|l' rest']; [reflexivity|].
  rewrite IH; unfold default; cbn [listeners onabort from_option id].
  - rewrite <- app_assoc. cbn [app length].
    now rewrite <- !Nat.iter_succ_r.
  - rewrite <- app_assoc. exact Hnd.
  - discriminate.
Qed.

Lemma concat_replicate_end {A} n (c : list A) :
  concat (replicate n c) ++ c = c ++ concat (replicate n c).
Proof.
  induction n as [|n IH]; simpl; [now rewrite app_nil_r|].
  now rewrite <- app_assoc, IH.
Qed.

Lemma run_iter n : forall h cur,
  run (Nat.iter n HWrap h) (Some cur)
  = run h (Some cur) ++ concat (replicate n (map CallListener cur)).
Proof.
  induction n as [|n IH]; intros h cur.
  - simpl. now rewrite app_nil_r.
  - change (Nat.iter (S n) HWrap h) with (HWrap (Nat.iter n HWrap h)).
    cbn [run]. rewrite IH, <- app_assoc, concat_replicate_end. reflexivity.
Qed.

(** X21.  After n different listeners have been added to a signal that had
    none, an abort calls the handler that was assigned before (if any) once
    and then every listener n times: the listeners in the order they were
    added, and this list n times over. *)
Theorem abort_calls_each_listener_once_per_listener (ls : list nat) :
  NoDup ls ->
  abort (add_all ls fresh)
  = concat (replicate (length ls) (map CallListener ls))
  /\ forall f,
       abort (add_all ls (set_onabort f fresh))
       = CallHandler f
         :: concat (replicate (length ls) (map CallListener ls)).
Proof.
  intros Hnd. destruct ls as [|l rest]; [split; reflexivity|].
  split; [|intros f]; unfold abort;
    rewrite add_all_state by (simpl; auto; discriminate);
    cbn [listeners onabort default fresh set_onabort app];
    rewrite run_iter; reflexivity.
Qed.

Lemma abort_calls_each_listener_once_per_listener_witness :
  NoDup [1; 2]
  /\ abort (add_all [1; 2] fresh)
     = [CallListener 1; CallListener 2; CallListener 1; CallListener 2].
Proof.
  assert (H : NoDup [1; 2]).
  { apply (bool_decide_unpack _). vm_compute. exact I. }
  split; [exact H|].
  exact (proj1 (abort_calls_each_listener_once_per_listener [1; 2] H)).
Defined.

(** X22.  Adding a listener that is already registered changes nothing, and
    both functions ignore every event type other than abort. *)
Theorem listeners_are_registered_once
  (type : jsstring) (l : nat) (s : Signal) :
  addEventListener type l (addEventListener type l s)
  = addEventListener type l s
  /\ (type <> lit "abort" ->
      addEventListener type l s = s /\ removeEventListener type l s = s).
Proof.
  split.
  - unfold addEventListener. destruct (is_abort type); cbn [negb]; [|reflexivity].
    destruct s as [[ls|] h]; cbn [listeners onabort].
    + destruct (has ls l) eqn:E; cbn [listeners onabort]; [now rewrite E|].
      rewrite (proj2 (has_spec (ls ++ [l]) l)); [reflexivity|].
      apply in_or_app. right. now left.
    + change (has [] l) with false. cbn [listeners onabort app].
      rewrite (proj2 (has_spec [l] l)) by (now left). reflexivity.
  - intros H. unfold addEventListener, removeEventListener, is_abort.
    destruct (Str.eqb type (lit "abort")) eqn:E; [|split; reflexivity].
    apply StrFacts.eqb_eq in E. contradiction.
Qed.

Lemma listeners_are_registered_once_witness :
  lit "click" <> lit "abort"
  /\ addEventListener (lit "click") 1 fresh = fresh
  /\ removeEventListener (lit "click") 1 (add_all [1] fresh) = add_all [1] fresh.
Proof.
  assert (H : lit "click" <> lit "abort") by discriminate.
  split; [exact H|]. split.
  - exact (proj1 (proj2 (listeners_are_registered_once (lit "click") 1 fresh) H)).
  - exact (proj2 (proj2 (listeners_are_registered_once
                           (lit "click") 1 (add_all [1] fresh)) H)).
Defined.

(** X23.  Adding a listener to a signal without listeners and removing it
    again does not restore the signal: removing the last listener sets
    onabort to null, so a handler that had been assigned to onabort before
    is no longer called on abort. *)
Theorem removing_last_listener_clears_onabort (s : Signal) (l : nat) :
  listeners s = None ->
  removeEventListener (lit "abort") l (addEventListener (lit "abort") l s)
  = fresh
  /\ abort (removeEventListener (lit "abort") l
              (addEventListener (lit "abort") l s)) = [].
Proof.
  intros H. rewrite add_new by (rewrite H; simpl; tauto). rewrite H.
  assert (E : removeEventListener (lit "abort") l
                (mkSignal (Some (default [] None ++ [l])) (HWrap (onabort s)))
              = fresh).
  { unfold removeEventListener.
    change (is_abort (lit "abort")) with true. cbn [negb listeners].
    cbn [default from_option app]. unfold default. cbn [from_option id app].
    rewrite filter_cons, decide_False by tauto. reflexivity. }
  rewrite E. split; reflexivity.
Qed.

Lemma removing_last_listener_clears_onabort_witness :
  abort (set_onabort 9 fresh) = [CallHandler 9]
  /\ abort (removeEventListener (lit "abort") 1
              (addEventListener (lit "abort") 1 (set_onabort 9 fresh))) = [].
Proof.
  split; [reflexivity|].
  exact (proj2 (removing_last_listener_clears_onabort
                  (set_onabort 9 fresh) 1 eq_refl)).
Defined.

Lemma run_listeners h cur x :
  In (CallListener x) (run h cur) -> exists ls, cur = Some ls /\ In x ls.
Proof.
  induction h as [|f|h IH]; simpl.
  - contradiction.
  - intros [C|[]]. discriminate.
  - intros H. apply in_app_or in H as [H|H]; [auto|].
    destruct cur as [ls|]; [|contradiction].
    exists ls. split; [reflexivity|].
    apply in_map_iff in H as (y & E & Hy). now injection E as ->.
Qed.

(** X24.  A listener that has been removed is not called by a later abort,
    whatever the state of the signal was. *)
Theorem removed_listener_is_not_called (s : Signal) (l : nat) :
  Forall (fun c => c <> CallListener l)
         (abort (removeEventListener (lit "abort") l s)).
Proof.
  apply Forall_forall. intros c Hc ->. apply list_elem_of_In in Hc.
  unfold abort in Hc. apply run_listeners in Hc as (ls & E & Hin).
  unfold removeEventListener in E.
  change (is_abort (lit "abort")) with true in E. cbn [negb] in E.
  destruct (listeners s) as [cur|] eqn:Es.
  - destruct (filter (fun x => x <> l) cur) as [|a rest] eqn:Ef;
      cbn [listeners] in E; [discriminate|].
    injection E as <-. rewrite <- Ef in Hin.
    apply list_elem_of_In, list_elem_of_filter in Hin as [Hne _]. congruence.
  - rewrite Es in E. discriminate.
Qed.

End PolyfillFacts.
